(** * banio: the framed messaging bus of banbot (utils/banio.go)

    A shallow embedding of [utils/banio.go]: the frame codec, the
    connection ([BanConn]) with its write and read paths and its reconnect
    protocol, the handler dispatch of the read loop, the server's key/value
    store and broadcast, the client's [GetVal], and the lock release built
    on top of the key/value store.

    Conventions of the embedding.
    - Go's [int64] and [int] values are [Z]; arithmetic that can wrap is
      written with [wrap64].
    - A [[]byte] is a [list Z].
    - A Go [map] is a stdpp [gmap]; a nil map is [None], an allocated one
      [Some m].
    - Everything the code obtains from its environment (socket results, the
      clock, dial results, the outcome of a [select]) is read from a script
      carried by the [World]; everything it does to the environment is
      appended to the world's trace of [Event]s. *)

From Stdlib Require Import ZArith List String Ascii Bool Lia.
From stdpp Require Import base option list gmap strings fin_maps.

Local Open Scope Z_scope.
Local Open Scope string_scope.

(** ** Machine integers *)

Definition wrap64 (x : Z) : Z := (x + 2 ^ 63) mod 2 ^ 64 - 2 ^ 63.

Definition in_int64 (x : Z) : Prop := - 2 ^ 63 <= x < 2 ^ 63.

Definition add64 (x y : Z) : Z := wrap64 (x + y).
Definition sub64 (x y : Z) : Z := wrap64 (x - y).
Definition mul64 (x y : Z) : Z := wrap64 (x * y).

(** [uint32(len(data))] *)
Definition uint32 (x : Z) : Z := x mod 2 ^ 32.

Abbreviation bytes := (list Z).

(** [binary.LittleEndian.PutUint32] on a fresh 4-byte slice. *)
Definition PutUint32 (v : Z) : bytes :=
  [ Z.land v 255;
    Z.land (Z.shiftr v 8) 255;
    Z.land (Z.shiftr v 16) 255;
    Z.land (Z.shiftr v 24) 255 ].

(** [binary.LittleEndian.Uint32]; the slice has at least four bytes where
    the code calls it, shorter slices are padded with zeros here. *)
Definition Uint32 (b : bytes) : Z :=
  Z.lor (nth 0 b 0)
    (Z.lor (Z.shiftl (nth 1 b 0) 8)
       (Z.lor (Z.shiftl (nth 2 b 0) 16) (Z.shiftl (nth 3 b 0) 24))).

(** ** Errors *)

(** The error codes of [core] and [errs] that [banio.go] uses.  Their
    numeric values are declared outside this file; only their being
    distinct matters.  [ErrNil] is the literal [0] that [getErrType]
    returns for a nil error. *)
Inductive ErrCode :=
| ErrNil
| ErrMarshalFail
| CodeUnmarshalFail
| ErrCompressFail
| ErrDeCompressFail
| ErrNetConnect
| ErrNetTimeout
| ErrNetTemporary
| ErrNetUnknown
| ErrNetReadFail
| ErrNetWriteFail
| ErrTimeout
| ErrRunTime.

#[global] Instance ErrCode_eq_dec : EqDecision ErrCode.
Proof. solve_decision. Defined.

(** What [getErrType] can observe of a Go [error]: the results of
    [errors.As] and [errors.Is] on it.  [asErrno] is the result of
    [errors.As] with a [*syscall.Errno] target: the errno pointed to when
    the chain holds a [*syscall.Errno]. *)
Record OpError := {
  op_Timeout : bool;
  op_Temporary : bool;
  op_Op : string
}.

Inductive Errno := ECONNRESET | EPIPE | EOTHER.

Record GoErr := {
  asOpError : option OpError;
  asErrno : option Errno;
  isDeadlineExceeded : bool;
  isEOF : bool;
  isClosedPipe : bool
}.

(** [*errs.Error]: a code and the wrapped error ([errs.New]) or a message
    ([errs.NewMsg]). *)
Inductive Cause := Wrapped (e : GoErr) | Msg (m : string).

Record Error := { Code : ErrCode; Why : Cause }.

Definition errs_New (code : ErrCode) (e : GoErr) : Error :=
  {| Code := code; Why := Wrapped e |}.

Definition errs_NewMsg (code : ErrCode) (m : string) : Error :=
  {| Code := code; Why := Msg m |}.

(** [errors.Is(callErr, target)] where [callErr] is the [*syscall.Errno]
    that [errors.As] has filled and [target] a [syscall.Errno]: the
    pointer is not equal to the errno value, a [*syscall.Errno] unwraps to
    nothing, and [Errno.Is] answers only for a few sentinel errors
    (permission, exist, not exist, unsupported), so the test is false for
    every errno [getErrType] asks about. *)
Definition errorsIsErrno (callErr target : Errno) : bool := false.

Definition getErrType (err : option GoErr) : ErrCode * string :=
  match err with
  | None => (ErrNil, "")
  | Some e =>
    match asOpError e with
    | Some opErr =>
      if op_Timeout opErr then (ErrNetTimeout, "op_timeout")
      else if op_Temporary opErr then (ErrNetTemporary, "op_temporary")
      else if String.eqb (op_Op opErr) "dial" then (ErrNetConnect, "op_conn_dial")
      else (ErrNetUnknown, "op_err")
    | None =>
      match asErrno e with
      | Some callErr =>
        if errorsIsErrno callErr ECONNRESET then (ErrNetConnect, "call_reset")
        else if errorsIsErrno callErr EPIPE then (ErrNetConnect, "call_pipe")
        else (ErrNetUnknown, "call_err")
      | None =>
        if isDeadlineExceeded e then (ErrNetTimeout, "dead_exceeded")
        else if isEOF e then (ErrNetConnect, "io_eof")
        else if isClosedPipe e then (ErrNetConnect, "pipe_closed")
        else (ErrNetUnknown, "net_fail")
      end
    end
  end.

(** ** Envelopes *)

(** The values of [interface{}] fields, seen as the JSON they marshal to
    (two Go values with the same JSON are one [Value]; the JSON library
    does not keep Go's dynamic types, which is why the handlers decode
    with mapstructure): null, integers (lock nonces), strings (keys),
    lists of strings (subscription tags), the request object of
    [onSetVal], the answer object of [onGetVal]; any other payload is
    opaque to the core. *)
Inductive Value :=
| VNil
| VInt (n : Z)
| VStr (s : string)
| VStrs (l : list string)
| VKeyValExpire (key : string) (val : Value) (secs : Z)   (* KeyValExpire *)
| VKeyVal (key : string) (val : Value)                    (* IOKeyVal *)
| VOpaque (id : nat).

Record IOMsg := { Action : string; Data : Value }.

(** ** The frame codec *)

(** The two libraries under the codec: JSON ([sonic.Marshal],
    [utils.Unmarshal]) and zlib.  [zlibDeflate] is [w.Write] followed by
    [w.Close] on a [zlib.NewWriter] over an empty buffer; [zlibInflate]
    is [zlib.NewReader] followed by [io.Copy]. *)
Class CodecLib := {
  Marshal : IOMsg -> GoErr + bytes;
  Unmarshal : bytes -> GoErr + IOMsg;
  zlibDeflate : bytes -> GoErr + bytes;
  zlibInflate : bytes -> GoErr + bytes
}.

(** What the libraries promise: unmarshalling inverts marshalling on the
    envelopes that marshal, inflating inverts deflating. *)
Class CodecLaws (L : CodecLib) := {
  Unmarshal_Marshal :
    forall (m : IOMsg) (raw : bytes), Marshal m = inr raw -> Unmarshal raw = inr m;
  Inflate_Deflate :
    forall (raw z : bytes), zlibDeflate raw = inr z -> zlibInflate z = inr raw
}.

Section Codec.
Context {L : CodecLib}.

Definition compress (data : bytes) : Error + bytes :=
  match zlibDeflate data with
  | inl err_ => inl (errs_New ErrCompressFail err_)
  | inr b => inr b
  end.

Definition deCompress (compressed : bytes) : Error + bytes :=
  match zlibInflate compressed with
  | inl err => inl (errs_New ErrDeCompressFail err)
  | inr result => inr result
  end.

(** The first half of [WriteMsg] and of [Broadcast]: marshal, then
    compress. *)
Definition encode (msg : IOMsg) : Error + bytes :=
  match Marshal msg with
  | inl err_ => inl (errs_New ErrMarshalFail err_)
  | inr raw => compress raw
  end.

(** The second half of [ReadMsg]: decompress, then unmarshal. *)
Definition decode (compressed : bytes) : Error + IOMsg :=
  match deCompress compressed with
  | inl err => inl err
  | inr data =>
    match Unmarshal data with
    | inl err_ => inl (errs_New CodeUnmarshalFail err_)
    | inr msg => inr msg
    end
  end.
End Codec.


(** ** Go maps *)

(** Reading a nil map finds nothing, deleting from it does nothing,
    assigning into it panics ([mset] answers [None]). *)
Definition mget {V : Type} (m : option (gmap string V)) (k : string) : option V :=
  match m with
  | Some g => g !! k
  | None => None
  end.

Definition mdel {V : Type} (k : string) (m : option (gmap string V))
  : option (gmap string V) :=
  match m with
  | Some g => Some (delete k g)
  | None => None
  end.

Definition mset {V : Type} (k : string) (v : V) (m : option (gmap string V))
  : option (option (gmap string V)) :=
  match m with
  | Some g => Some (Some (<[k:=v]> g))
  | None => None
  end.

(** ** The environment *)

(** A [net.Conn] is known by a number. *)
Definition sock := nat.

(** A channel of [GetVal] is known by a number. *)
Definition chan := nat.

(** The handlers ([ConnCB] closures) that [banio.go] registers, and
    handlers registered by callers. *)
Inductive ConnCB :=
| CbSubscribe
| CbUnSubscribe
| CbOnGetVal
| CbOnSetVal
| CbOnGetValRes
| CbUser (id : nat).

#[global] Instance ConnCB_eq_dec : EqDecision ConnCB.
Proof. solve_decision. Defined.

Inductive Event :=
| EvLock                                   (* c.m.Lock() *)
| EvUnlock                                 (* c.m.Unlock() *)
| EvSockWrite (s : sock) (data : bytes)    (* c.Conn.Write(data) *)
| EvSockRead (s : sock) (n : Z)            (* c.Conn.Read(buf), len(buf) = n *)
| EvSockClose (s : sock)                   (* c.Conn.Close() *)
| EvSleep (millis : Z)                     (* core.Sleep *)
| EvDial (addr : string)                   (* net.Dial("tcp", addr) *)
| EvReInit (cb : nat)                      (* c.ReInitConn() *)
| EvInitConn (cb : nat)                    (* s.InitConn(res) *)
| EvLog (level text : string)              (* log.Info, log.Warn, log.Error *)
| EvHandle (h : ConnCB) (action : string) (data : Value)  (* handle(action, data) *)
| EvMakeChan (ch : chan)                   (* make(chan interface{}) *)
| EvSelect (ch : chan) (nanos : Z)         (* select on ch and time.After *)
| EvCloseChan (ch : chan).                 (* close(ch) *)

Record World := {
  sockWrites : list (option GoErr);        (* errors of the coming Conn.Write calls *)
  sockReads : list (bytes * option GoErr); (* bytes and errors of the coming Conn.Read calls *)
  clock : list Z;                          (* the coming readings of btime.TimeMS() *)
  dials : list (GoErr + sock);             (* the coming results of net.Dial *)
  ranges : list (list (string * ConnCB));  (* the orders of the coming range loops over Listens *)
  selects : list (option Value);           (* the coming select outcomes, None: the timer fires *)
  nextChan : chan;                         (* the next channel make returns *)
  trace : list Event                       (* what has happened, oldest first *)
}.

(** The outcome of running a piece of code: it returns, it panics, or the
    model cannot go on ([Stuck]: the fuel or the script is used up). *)
Inductive Res (A : Type) :=
| Done (a : A)
| Panic (why : string)
| Stuck.

Arguments Done {A} a.
Arguments Panic {A} why.
Arguments Stuck {A}.

Definition M (A : Type) : Type := World -> Res (A * World).

#[global] Instance M_ret : MRet M := fun A a w => Done (a, w).

#[global] Instance M_bind : MBind M := fun A B f m w =>
  match m w with
  | Done (a, w') => f a w'
  | Panic why => Panic why
  | Stuck => Stuck
  end.

Definition panic {A : Type} (why : string) : M A := fun _ => Panic why.

Definition stuck {A : Type} : M A := fun _ => Stuck.

Definition nilDeref : string := "invalid memory address or nil pointer dereference".

Definition nilMapWrite : string := "assignment to entry in nil map".

Definition emit (e : Event) : M unit := fun w =>
  Done (tt, {| sockWrites := sockWrites w; sockReads := sockReads w;
               clock := clock w; dials := dials w; ranges := ranges w;
               selects := selects w; nextChan := nextChan w;
               trace := trace w ++ [e] |}).

(** [btime.TimeMS()] *)
Definition TimeMS : M Z := fun w =>
  match clock w with
  | now :: later =>
    Done (now, {| sockWrites := sockWrites w; sockReads := sockReads w;
                  clock := later; dials := dials w; ranges := ranges w;
                  selects := selects w; nextChan := nextChan w;
                  trace := trace w |})
  | [] => Stuck
  end.

Definition sockWrite (s : sock) (data : bytes) : M (option GoErr) := fun w =>
  match sockWrites w with
  | r :: later =>
    Done (r, {| sockWrites := later; sockReads := sockReads w;
                clock := clock w; dials := dials w; ranges := ranges w;
                selects := selects w; nextChan := nextChan w;
                trace := trace w ++ [EvSockWrite s data] |})
  | [] => Stuck
  end.

(** A single [Conn.Read] into a zeroed buffer of [n] bytes: the buffer
    afterwards, and the error. *)
Definition sockRead (s : sock) (n : Z) : M (bytes * option GoErr) := fun w =>
  match sockReads w with
  | (got, r) :: later =>
    Done ((firstn (Z.to_nat n) (got ++ repeat 0 (Z.to_nat n)), r),
          {| sockWrites := sockWrites w; sockReads := later;
             clock := clock w; dials := dials w; ranges := ranges w;
             selects := selects w; nextChan := nextChan w;
             trace := trace w ++ [EvSockRead s n] |})
  | [] => Stuck
  end.

(** [net.Dial("tcp", addr)] *)
Definition netDial (addr : string) : M (GoErr + sock) := fun w =>
  match dials w with
  | r :: later =>
    Done (r, {| sockWrites := sockWrites w; sockReads := sockReads w;
                clock := clock w; dials := later; ranges := ranges w;
                selects := selects w; nextChan := nextChan w;
                trace := trace w ++ [EvDial addr] |})
  | [] => Stuck
  end.

(** [for prefix, handle := range listens]: Go leaves the order of a range
    over a map unspecified; the script gives the order of this loop, which
    must enumerate the map. *)
Definition rangeListens (listens : gmap string ConnCB) : M (list (string * ConnCB)) := fun w =>
  match ranges w with
  | order :: later =>
    if decide (order ≡ₚ map_to_list listens) then
      Done (order, {| sockWrites := sockWrites w; sockReads := sockReads w;
                      clock := clock w; dials := dials w; ranges := later;
                      selects := selects w; nextChan := nextChan w;
                      trace := trace w |})
    else Stuck
  | [] => Stuck
  end.

(** [make(chan interface{})] *)
Definition makeChan : M chan := fun w =>
  Done (nextChan w,
        {| sockWrites := sockWrites w; sockReads := sockReads w;
           clock := clock w; dials := dials w; ranges := ranges w;
           selects := selects w; nextChan := S (nextChan w);
           trace := trace w ++ [EvMakeChan (nextChan w)] |}).

(** [select { case res = <-out: ... case <-time.After(d): ... }] *)
Definition selectRecv (out : chan) (nanos : Z) : M (option Value) := fun w =>
  match selects w with
  | r :: later =>
    Done (r, {| sockWrites := sockWrites w; sockReads := sockReads w;
                clock := clock w; dials := dials w; ranges := ranges w;
                selects := later; nextChan := nextChan w;
                trace := trace w ++ [EvSelect out nanos] |})
  | [] => Stuck
  end.

(** ** The connection *)

(** The reconnect hooks of the repository: [NewClientIO] installs a loop
    that dials [addr] until it succeeds. *)
Inductive ConnectHook :=
| DialLoop (addr : string).

(** The mutex [m] has no field: locking and unlocking it are events. *)
Record BanConn := {
  Conn : option sock;
  Tags : option (gmap string bool);
  Remote : string;
  Listens : option (gmap string ConnCB);
  RefreshMS : Z;
  Ready : bool;
  DoConnect : option ConnectHook;
  ReInitConn : option nat
}.

Definition set_Conn (v : option sock) (c : BanConn) : BanConn :=
  {| Conn := v; Tags := Tags c; Remote := Remote c; Listens := Listens c;
     RefreshMS := RefreshMS c; Ready := Ready c; DoConnect := DoConnect c;
     ReInitConn := ReInitConn c |}.

Definition set_Tags (v : option (gmap string bool)) (c : BanConn) : BanConn :=
  {| Conn := Conn c; Tags := v; Remote := Remote c; Listens := Listens c;
     RefreshMS := RefreshMS c; Ready := Ready c; DoConnect := DoConnect c;
     ReInitConn := ReInitConn c |}.

Definition set_Listens (v : option (gmap string ConnCB)) (c : BanConn) : BanConn :=
  {| Conn := Conn c; Tags := Tags c; Remote := Remote c; Listens := v;
     RefreshMS := RefreshMS c; Ready := Ready c; DoConnect := DoConnect c;
     ReInitConn := ReInitConn c |}.

Definition set_RefreshMS (v : Z) (c : BanConn) : BanConn :=
  {| Conn := Conn c; Tags := Tags c; Remote := Remote c; Listens := Listens c;
     RefreshMS := v; Ready := Ready c; DoConnect := DoConnect c;
     ReInitConn := ReInitConn c |}.

Definition set_Ready (v : bool) (c : BanConn) : BanConn :=
  {| Conn := Conn c; Tags := Tags c; Remote := Remote c; Listens := Listens c;
     RefreshMS := RefreshMS c; Ready := v; DoConnect := DoConnect c;
     ReInitConn := ReInitConn c |}.

Definition GetRemote (c : BanConn) : string := Remote c.

Definition IsClosed (c : BanConn) : bool :=
  match Conn c with
  | None => true
  | Some _ => negb (Ready c)
  end.

Definition HasTag (c : BanConn) (tag : string) : bool :=
  match mget (Tags c) tag with
  | Some _ => true
  | None => false
  end.

(** A method call on [c.Conn]: a nil [c.Conn] panics. *)
Definition connWrite (c : BanConn) (data : bytes) : M (option GoErr) :=
  match Conn c with
  | Some s => sockWrite s data
  | None => panic nilDeref
  end.

Definition connRead (c : BanConn) (n : Z) : M (bytes * option GoErr) :=
  match Conn c with
  | Some s => sockRead s n
  | None => panic nilDeref
  end.

(** The body of the hook of [NewClientIO]. *)
Fixpoint dialLoop (fuel : nat) (addr : string) (c : BanConn) : M BanConn :=
  match fuel with
  | O => stuck
  | S fuel' =>
    cn ← netDial addr;
    match cn with
    | inl err_ =>
      emit (EvLog "error" "connect fail, sleep 10s and retry..");;
      emit (EvSleep 10000);;
      dialLoop fuel' addr c
    | inr s => mret (set_Conn (Some s) c)
    end
  end.

(** [c.DoConnect(c)]; calling a nil hook panics. *)
Definition callDoConnect (fuel : nat) (c : BanConn) : M BanConn :=
  match DoConnect c with
  | Some (DialLoop addr) => dialLoop fuel addr c
  | None => panic nilDeref
  end.

(** [connect] after its freshness gate. *)
Definition reconnect (fuel : nat) (c : BanConn) : M BanConn :=
  let c := set_Ready false c in
  c ← match Conn c with
      | Some s => emit (EvSockClose s);; mret (set_Conn None c)
      | None => mret c
      end;
  emit (EvSleep 3000);;
  c ← callDoConnect fuel c;
  now ← TimeMS;
  let c := set_RefreshMS now c in
  match Conn c with
  | Some _ =>
    match ReInitConn c with
    | Some cb => emit (EvReInit cb)
    | None => mret tt
    end;;
    mret (set_Ready true c)
  | None => mret c
  end.

Definition connect (fuel : nat) (lock : bool) (c : BanConn) : M BanConn :=
  if lock then
    emit EvLock;;
    fresh ← (if Ready c
             then now ← TimeMS; mret (bool_decide (sub64 now (RefreshMS c) < 2000))
             else mret false);
    if (fresh : bool) then
      (* the connection has been refreshed already: skip this retry *)
      emit EvUnlock;; mret c
    else
      c ← reconnect fuel c;
      emit EvUnlock;; mret c
  else reconnect fuel c.

Fixpoint Write (fuel : nat) (c : BanConn) (data : bytes) : M (option Error * BanConn) :=
  match fuel with
  | O => stuck
  | S fuel' =>
    let dataLen := uint32 (Z.of_nat (length data)) in
    let lenBt := PutUint32 dataLen in
    err_ ← connWrite c lenBt;
    match err_ with
    | Some e =>
      let c := set_Ready false c in
      let errCode := fst (getErrType (Some e)) in
      if bool_decide (DoConnect c ≠ None) && bool_decide (errCode = ErrNetConnect) then
        emit (EvLog "warn" "write fail, wait 3s and retry");;
        c ← connect fuel' false c;
        Write fuel' c data
      else mret (Some (errs_New errCode e), c)
    | None =>
      err_ ← connWrite c data;
      match err_ with
      | Some e => mret (Some (errs_New ErrNetWriteFail e), set_Ready false c)
      | None => mret (None, c)
      end
    end
  end.

Fixpoint Read (fuel : nat) (c : BanConn) : M ((Error + bytes) * BanConn) :=
  match fuel with
  | O => stuck
  | S fuel' =>
    '(lenBuf, err_) ← connRead c 4;
    match err_ with
    | Some e =>
      let errCode := fst (getErrType (Some e)) in
      if bool_decide (DoConnect c ≠ None) && bool_decide (errCode = ErrNetConnect) then
        emit (EvLog "warn" "read fail, wait 3s and retry");;
        c ← connect fuel' true c;
        Read fuel' c
      else mret (inl (errs_New errCode e), c)
    | None =>
      let dataLen := Uint32 lenBuf in
      '(buf, err_) ← connRead c dataLen;
      match err_ with
      | Some e => mret (inl (errs_New ErrNetReadFail e), c)
      | None => mret (inr buf, c)
      end
    end
  end.

(** [Subscribe] and [UnSubscribe]; [None]: the assignment panics. *)
Fixpoint subscribeTags (tags : list string) (m : option (gmap string bool))
  : option (option (gmap string bool)) :=
  match tags with
  | [] => Some m
  | tag :: rest =>
    match mset tag true m with
    | Some m' => subscribeTags rest m'
    | None => None
    end
  end.

Definition Subscribe (c : BanConn) (tags : list string) : M BanConn :=
  match subscribeTags tags (Tags c) with
  | Some m => mret (set_Tags m c)
  | None => panic nilMapWrite
  end.

Definition UnSubscribe (c : BanConn) (tags : list string) : BanConn :=
  set_Tags (fold_left (fun m tag => mdel tag m) tags (Tags c)) c.

Section Messages.
Context {L : CodecLib}.

Definition WriteMsg (fuel : nat) (c : BanConn) (msg : IOMsg) : M (option Error * BanConn) :=
  match Marshal msg with
  | inl err_ => mret (Some (errs_New ErrMarshalFail err_), c)
  | inr raw =>
    match compress raw with
    | inl err => mret (Some err, c)
    | inr compressed =>
      emit EvLock;;
      r ← Write fuel c compressed;
      emit EvUnlock;;
      mret r
    end
  end.

Definition ReadMsg (fuel : nat) (c : BanConn) : M ((Error + IOMsg) * BanConn) :=
  '(r, c) ← Read fuel c;
  match r with
  | inl err => mret (inl err, c)
  | inr compressed => mret (decode compressed, c)
  end.

End Messages.

(** ** Handler dispatch *)

(** [strings.HasPrefix] *)
Definition HasPrefix (s prefix : string) : bool :=
  (String.length prefix <=? String.length s)%nat
  && String.eqb (substring 0 (String.length prefix) s) prefix.

(** The inner loop of [RunForever] over the entries in the order of the
    range: the first entry whose prefix matches ends the loop. *)
Fixpoint scanListens (order : list (string * ConnCB)) (action : string)
  : option (string * ConnCB) :=
  match order with
  | [] => None
  | (prefix, handle) :: rest =>
    if HasPrefix action prefix then Some (prefix, handle)
    else scanListens rest action
  end.

(** The choice of one message of [RunForever]: the call of the handler
    found is the event [EvHandle] (its body runs in [dispatchRun] below),
    no handler found is the log line. *)
Definition dispatch (order : list (string * ConnCB)) (msg : IOMsg) : M unit :=
  match scanListens order (Action msg) with
  | Some (_, handle) => emit (EvHandle handle (Action msg) (Data msg))
  | None => emit (EvLog "info" "unhandle msg")
  end.

Definition listensOf (c : BanConn) : gmap string ConnCB :=
  match Listens c with
  | Some g => g
  | None => ∅
  end.

Section ReadLoop.
Context {L : CodecLib}.

(** The handlers in [c.Listens] are closures: those of this file capture
    the connection they are registered on and the server or client that
    made it.  [Env] is what they capture besides the connection, and
    [handle h action data] is the body of the closure [h], run on the
    connection and on [Env]. *)
Variable Env : Type.
Variable handle : ConnCB -> string -> Value -> BanConn * Env -> M (BanConn * Env).

(** One message of [RunForever]: [dispatch] finds the first handler in
    the order of the range and marks its call, or logs when there is
    none; the body of the handler found then runs, on the connection of
    the loop. *)
Definition dispatchRun (order : list (string * ConnCB)) (msg : IOMsg)
    (st : BanConn * Env) : M (BanConn * Env) :=
  dispatch order msg;;
  match scanListens order (Action msg) with
  | Some (_, h) => handle h (Action msg) (Data msg) st
  | None => mret st
  end.

Fixpoint readLoop (fuel : nat) (st : BanConn * Env) : M (Error * (BanConn * Env)) :=
  match fuel with
  | O => stuck
  | S fuel' =>
    '(r, c) ← ReadMsg fuel' (fst st);
    match r with
    | inl err => mret (err, (c, snd st))
    | inr msg =>
      order ← rangeListens (listensOf c);
      st ← dispatchRun order msg (c, snd st);
      readLoop fuel' st
    end
  end.

(** [defer c.Conn.Close()] keeps the socket the connection has on entry. *)
Definition RunForever (fuel : nat) (st : BanConn * Env) : M (Error * (BanConn * Env)) :=
  match Conn (fst st) with
  | None => panic nilDeref
  | Some s0 =>
    r ← readLoop fuel st;
    emit (EvSockClose s0);;
    mret r
  end.

End ReadLoop.

Arguments dispatchRun {Env} handle order msg st.
Arguments readLoop {L Env} handle fuel st.
Arguments RunForever {L Env} handle fuel st.

Definition initListens (c : BanConn) : M BanConn :=
  match mset "subscribe" CbSubscribe (Listens c) with
  | None => panic nilMapWrite
  | Some l1 =>
    match mset "unsubscribe" CbUnSubscribe l1 with
    | None => panic nilMapWrite
    | Some l2 => mret (set_Listens l2 c)
    end
  end.

(** ** The server *)

Record KeyValExpire := { Key : string; Val : Value; ExpireSecs : Z }.

Module Server.

Record ServerIO := {
  Addr : string;
  Name : string;
  Conns : list BanConn;
  Data : option (gmap string Value);
  DataExp : option (gmap string Z);
  InitConn : option nat
}.

Definition set_Conns (v : list BanConn) (s : ServerIO) : ServerIO :=
  {| Addr := Addr s; Name := Name s; Conns := v; Data := Data s;
     DataExp := DataExp s; InitConn := InitConn s |}.

Definition set_Data (v : option (gmap string Value)) (s : ServerIO) : ServerIO :=
  {| Addr := Addr s; Name := Name s; Conns := Conns s; Data := v;
     DataExp := DataExp s; InitConn := InitConn s |}.

Definition set_DataExp (v : option (gmap string Z)) (s : ServerIO) : ServerIO :=
  {| Addr := Addr s; Name := Name s; Conns := Conns s; Data := Data s;
     DataExp := v; InitConn := InitConn s |}.

(** The struct [NewBanServer] builds: [Data] is allocated, [DataExp] is
    left nil. *)
Definition NewBanServer (addr name : string) : ServerIO :=
  {| Addr := addr; Name := name; Conns := []; Data := Some ∅;
     DataExp := None; InitConn := None |}.

Definition SetVal (s : ServerIO) (args : KeyValExpire) : M ServerIO :=
  match Val args with
  | VNil =>
    (* delete the value *)
    mret (set_Data (mdel (Key args) (Data s)) s)
  | val =>
    match mset (Key args) val (Data s) with
    | None => panic nilMapWrite
    | Some d =>
      let s := set_Data d s in
      if bool_decide (0 < ExpireSecs args) then
        now ← TimeMS;
        match mset (Key args) (add64 now (mul64 (ExpireSecs args) 1000)) (DataExp s) with
        | None => panic nilMapWrite
        | Some e => mret (set_DataExp e s)
        end
      else mret s
    end
  end.

Definition GetVal (s : ServerIO) (key : string) : M (Value * ServerIO) :=
  match mget (Data s) key with
  | None => mret (VNil, s)
  | Some val =>
    match mget (DataExp s) key with
    | Some exp =>
      now ← TimeMS;
      if bool_decide (exp <= now) then
        mret (VNil, set_DataExp (mdel key (DataExp s)) (set_Data (mdel key (Data s)) s))
      else mret (val, s)
    | None => mret (val, s)
    end
  end.

(** The first loop of [Broadcast]: the open connections, and among them
    those that hold the tag. *)
Fixpoint scanConns (conns : list BanConn) (action : string)
  : list BanConn * list BanConn :=
  match conns with
  | [] => ([], [])
  | conn :: rest =>
    let '(allConns, curConns) := scanConns rest action in
    if IsClosed conn then (allConns, curConns)
    else (conn :: allConns,
          if HasTag conn action then conn :: curConns else curConns)
  end.

Section WithCodec.
Context {L : CodecLib}.

(** [Broadcast] returns its error, leaves the server with the compacted
    roster, and starts one goroutine per selected connection: the list of
    pairs of a connection and the bytes its goroutine passes to [Write]. *)
Definition Broadcast (s : ServerIO) (msg : IOMsg)
  : option Error * ServerIO * list (BanConn * bytes) :=
  let '(allConns, curConns) := scanConns (Conns s) (Action msg) in
  let s := set_Conns allConns s in
  match curConns with
  | [] => (None, s, [])
  | _ :: _ =>
    match Marshal msg with
    | inl err_ => (Some (errs_New ErrMarshalFail err_), s, [])
    | inr raw =>
      match compress raw with
      | inl err => (Some err, s, [])
      | inr compressed => (None, s, map (fun c => (c, compressed)) curConns)
      end
    end
  end.

End WithCodec.

(** The body of a goroutine of [Broadcast]. *)
Definition broadcastSend (fuel : nat) (c : BanConn) (compressed : bytes) : M BanConn :=
  '(err, c) ← Write fuel c compressed;
  match err with
  | Some _ => emit (EvLog "error" "broadcast fail");; mret c
  | None => mret c
  end.

Definition WrapConn (s : ServerIO) (conn : sock) (remote : string) : M BanConn :=
  now ← TimeMS;
  let res :=
    {| Conn := Some conn; Tags := Some ∅; Remote := remote;
       Listens := Some (<["onSetVal" := CbOnSetVal]> (<["onGetVal" := CbOnGetVal]> ∅));
       RefreshMS := now; Ready := true; DoConnect := None; ReInitConn := None |} in
  res ← initListens res;
  match InitConn s with
  | Some cb => emit (EvInitConn cb)
  | None => mret tt
  end;;
  mret res.

End Server.

(** ** The handlers of a server-side connection *)

(** The two libraries under the handlers: [mapstructure.Decode] into the
    targets the handlers use, and [fmt.Sprintf] with the verb %v.
    [DecodeTags] is the decode into a [[]string] that is empty,
    [DecodeKeyValExpire] the decode into a zero [KeyValExpire]; [None]:
    the decode returns an error. *)
Class DataLib := {
  DecodeTags : Value -> option (list string);
  DecodeKeyValExpire : Value -> option KeyValExpire;
  Sprint : Value -> string
}.

(** [DecodeMsgData(input, out, name)], with [decoded] what
    [mapstructure.Decode(input, out)] leaves in [out]: the answer [true]
    is [Some] of it. *)
Definition DecodeMsgData {T : Type} (decoded : option T) (name : string) : M (option T) :=
  match decoded with
  | Some out => mret (Some out)
  | None =>
    emit (EvLog "error" (name ++ " receive invalid"));;
    mret None
  end.

Section ServerHandlers.
Context {L : CodecLib} {D : DataLib}.

(** The closure [initListens] registers under "subscribe". *)
Definition onSubscribe (data : Value) (c : BanConn) : M BanConn :=
  tags ← DecodeMsgData (DecodeTags data) "subscribe";
  match tags with
  | Some tags => Subscribe c tags
  | None => mret c
  end.

(** The closure [initListens] registers under "unsubscribe". *)
Definition onUnSubscribe (data : Value) (c : BanConn) : M BanConn :=
  tags ← DecodeMsgData (DecodeTags data) "unsubscribe";
  match tags with
  | Some tags => mret (UnSubscribe c tags)
  | None => mret c
  end.

(** The closure [WrapConn] registers under "onGetVal": the reply goes out
    on the connection itself. *)
Definition onGetVal (fuel : nat) (data : Value) (res : BanConn) (s : Server.ServerIO)
  : M (BanConn * Server.ServerIO) :=
  let key := Sprint data in
  '(val, s) ← Server.GetVal s key;
  '(err, res) ← WriteMsg fuel res {| Action := "onGetValRes"; Data := VKeyVal key val |};
  match err with
  | Some _ => emit (EvLog "error" "write val res fail");; mret (res, s)
  | None => mret (res, s)
  end.

(** The closure [WrapConn] registers under "onSetVal". *)
Definition onSetVal (data : Value) (s : Server.ServerIO) : M Server.ServerIO :=
  args ← DecodeMsgData (DecodeKeyValExpire data) "onSetVal";
  match args with
  | Some args => Server.SetVal s args
  | None => mret s
  end.

(** The handlers [WrapConn] and [initListens] register on a connection,
    run on that connection and on the server that wrapped it; none of
    them reads or writes the roster of the server.  The handler of the
    client hands its value over a channel to the goroutine that waits in
    [GetVal], and handlers of callers are not in this file: the model
    stops at their call. *)
Definition serverHandle (fuel : nat) (h : ConnCB) (action : string) (data : Value)
    (st : BanConn * Server.ServerIO) : M (BanConn * Server.ServerIO) :=
  match h with
  | CbSubscribe => c ← onSubscribe data (fst st); mret (c, snd st)
  | CbUnSubscribe => c ← onUnSubscribe data (fst st); mret (c, snd st)
  | CbOnGetVal => onGetVal fuel data (fst st) (snd st)
  | CbOnSetVal => s ← onSetVal data (snd st); mret (fst st, s)
  | CbOnGetValRes | CbUser _ => stuck
  end.

End ServerHandlers.

(** ** The client *)

Definition readTimeout : Z := 120.

(** [time.Second], in nanoseconds. *)
Definition Second : Z := 1000000000.

Module Client.

Record ClientIO := {
  conn : BanConn;                       (* the embedded BanConn *)
  Addr : string;
  waits : option (gmap string chan)
}.

Definition set_conn (v : BanConn) (c : ClientIO) : ClientIO :=
  {| conn := v; Addr := Addr c; waits := waits c |}.

Definition set_waits (v : option (gmap string chan)) (c : ClientIO) : ClientIO :=
  {| conn := conn c; Addr := Addr c; waits := v |}.

(** The remote address of the dialled socket is written as the dialled
    address. *)
Definition NewClientIO (addr : string) : M (Error + ClientIO) :=
  r ← netDial addr;
  match r with
  | inl err_ => mret (inl (errs_New ErrNetConnect err_))
  | inr cn =>
    now ← TimeMS;
    mret (inr {| Addr := addr;
                 conn := {| Conn := Some cn; Tags := Some ∅; Remote := addr;
                            Listens := Some (<["onGetValRes" := CbOnGetValRes]> ∅);
                            RefreshMS := now; Ready := true;
                            DoConnect := Some (DialLoop addr);
                            ReInitConn := None |};
                 waits := Some ∅ |})
  end.

Section WithCodec.
Context {L : CodecLib}.

Definition GetVal (fuel : nat) (c : ClientIO) (key : string) (timeout : Z)
  : M (Value * option Error * ClientIO) :=
  '(err, bc) ← WriteMsg fuel (conn c) {| Action := "onGetVal"; Data := VStr key |};
  let c := set_conn bc c in
  match err with
  | Some e => mret (VNil, Some e, c)
  | None =>
    let timeout := if bool_decide (timeout = 0) then readTimeout else timeout in
    out ← makeChan;
    match mset key out (waits c) with
    | None => panic nilMapWrite
    | Some ws =>
      let c := set_waits ws c in
      r ← selectRecv out (mul64 Second timeout);
      match r with
      | Some res => mret (res, None, c)
      | None =>
        emit (EvCloseChan out);;
        mret (VNil, None, set_waits (mdel key (waits c)) c)
      end
    end
  end.

Definition SetVal (fuel : nat) (c : ClientIO) (args : KeyValExpire)
  : M (option Error * ClientIO) :=
  '(err, bc) ← WriteMsg fuel (conn c)
     {| Action := "onSetVal";
        Data := VKeyValExpire (Key args) (Val args) (ExpireSecs args) |};
  mret (err, set_conn bc c).

End WithCodec.

End Client.

(** ** The process-wide server and client, and the lock release *)

Record Globals := {
  banServer : option Server.ServerIO;
  banClient : option Client.ClientIO
}.

Definition wrap32 (x : Z) : Z := (x + 2 ^ 31) mod 2 ^ 32 - 2 ^ 31.

(** [mapstructure.Decode(val, &valInt)] with [valInt] an [int32] holding
    [cur], its error dropped as [DelNetLock] drops it: an integer is
    stored, nil and values that are not numbers leave [valInt] as it
    was. *)
Definition DecodeInt32 (val : Value) (cur : Z) : Z :=
  match val with
  | VInt n => wrap32 n
  | _ => cur
  end.

Section Lock.
Context {L : CodecLib}.

Definition GetServerData (fuel : nat) (g : Globals) (key : string)
  : M (Value * option Error * Globals) :=
  match banServer g with
  | Some s =>
    '(data, s) ← Server.GetVal s key;
    mret (data, None, {| banServer := Some s; banClient := banClient g |})
  | None =>
    match banClient g with
    | None => mret (VNil, Some (errs_NewMsg ErrRunTime "banClient not load"), g)
    | Some c =>
      '(res, err, c) ← Client.GetVal fuel c key 0;
      mret (res, err, {| banServer := banServer g; banClient := Some c |})
    end
  end.

Definition SetServerData (fuel : nat) (g : Globals) (args : KeyValExpire)
  : M (option Error * Globals) :=
  match banServer g with
  | Some s =>
    s ← Server.SetVal s args;
    mret (None, {| banServer := Some s; banClient := banClient g |})
  | None =>
    match banClient g with
    | None => mret (Some (errs_NewMsg ErrRunTime "banClient not load"), g)
    | Some c =>
      '(err, c) ← Client.SetVal fuel c args;
      mret (err, {| banServer := banServer g; banClient := Some c |})
    end
  end.

Definition DelNetLock (fuel : nat) (g : Globals) (key : string) (lockVal : Z)
  : M (option Error * Globals) :=
  let lockKey := "lock_" ++ key in
  '(val, err, g) ← GetServerData fuel g lockKey;
  match err with
  | Some e => mret (Some e, g)
  | None =>
    let valInt := DecodeInt32 val 0 in
    if bool_decide (valInt = lockVal) then
      SetServerData fuel g {| Key := lockKey; Val := VNil; ExpireSecs := 0 |}
    else
      emit (EvLog "info" "del lock fail");;
      mret (None, g)
  end.

End Lock.

(** ** Holding the write mutex *)

(** Every socket write of a trace happens between a lock and the next
    unlock of the connection's mutex; [held] tells whether the mutex is
    held where the trace starts. *)
Fixpoint writesUnderLock (held : bool) (tr : list Event) : bool :=
  match tr with
  | [] => true
  | EvLock :: rest => writesUnderLock true rest
  | EvUnlock :: rest => writesUnderLock false rest
  | EvSockWrite _ _ :: rest => held && writesUnderLock held rest
  | _ :: rest => writesUnderLock held rest
  end.

(** ** A codec to run the model on *)

(** A small codec that satisfies [CodecLaws]: an envelope with an integer
    payload is written as the integer followed by the character codes of
    the action, an envelope with a string payload as the action after its
    length followed by the string, an envelope with another payload does
    not marshal here, and deflating prepends the two bytes of a zlib
    header. *)
Definition noErr : GoErr :=
  {| asOpError := None; asErrno := None; isDeadlineExceeded := false;
     isEOF := false; isClosedPipe := false |}.

Definition codes (s : string) : bytes :=
  map (fun a => Z.of_N (N_of_ascii a)) (list_ascii_of_string s).

Definition uncodes (b : bytes) : string :=
  string_of_list_ascii (map (fun z => ascii_of_N (Z.to_N z)) b).

Definition loopMarshal (m : IOMsg) : GoErr + bytes :=
  match Data m with
  | VInt n => inr (0 :: n :: codes (Action m))
  | VStr s => inr (1 :: Z.of_nat (String.length (Action m)) :: codes (Action m) ++ codes s)
  | _ => inl noErr
  end.

Definition loopUnmarshal (raw : bytes) : GoErr + IOMsg :=
  match raw with
  | 0 :: n :: cs => inr {| Action := uncodes cs; Data := VInt n |}
  | 1 :: n :: cs =>
    inr {| Action := uncodes (firstn (Z.to_nat n) cs);
           Data := VStr (uncodes (skipn (Z.to_nat n) cs)) |}
  | _ => inl noErr
  end.

Definition loopDeflate (raw : bytes) : GoErr + bytes := inr (120 :: 156 :: raw).

Definition loopInflate (z : bytes) : GoErr + bytes :=
  match z with
  | 120 :: 156 :: raw => inr raw
  | _ => inl noErr
  end.

Definition Loopback : CodecLib :=
  {| Marshal := loopMarshal; Unmarshal := loopUnmarshal;
     zlibDeflate := loopDeflate; zlibInflate := loopInflate |}.

(** The same codec with two more kinds of payload: a list of strings is
    written as the strings, each after its length, and a key with an
    integer value as the integer followed by the key. *)
Definition packTags (l : list string) : bytes :=
  concat (map (fun t => Z.of_nat (String.length t) :: codes t) l).

Fixpoint unpackTags (fuel : nat) (b : bytes) : list string :=
  match fuel, b with
  | S fuel', n :: rest =>
    uncodes (firstn (Z.to_nat n) rest) :: unpackTags fuel' (skipn (Z.to_nat n) rest)
  | _, _ => []
  end.

Definition wireMarshal (m : IOMsg) : GoErr + bytes :=
  match Data m with
  | VStrs l =>
    inr (2 :: Z.of_nat (String.length (Action m)) :: codes (Action m) ++ packTags l)
  | VKeyVal k (VInt n) =>
    inr (3 :: n :: Z.of_nat (String.length (Action m)) :: codes (Action m) ++ codes k)
  | _ => loopMarshal m
  end.

Definition wireUnmarshal (raw : bytes) : GoErr + IOMsg :=
  match raw with
  | 2 :: n :: cs =>
    inr {| Action := uncodes (firstn (Z.to_nat n) cs);
           Data := VStrs (unpackTags (length cs) (skipn (Z.to_nat n) cs)) |}
  | 3 :: v :: n :: cs =>
    inr {| Action := uncodes (firstn (Z.to_nat n) cs);
           Data := VKeyVal (uncodes (skipn (Z.to_nat n) cs)) (VInt v) |}
  | _ => loopUnmarshal raw
  end.

Definition Wire : CodecLib :=
  {| Marshal := wireMarshal; Unmarshal := wireUnmarshal;
     zlibDeflate := loopDeflate; zlibInflate := loopInflate |}.

(** Decoding and printing to run the handlers on: nil decodes into any
    target and leaves it as it was, a list of strings decodes into the
    tags, an object into the fields of the request it names, and other
    payloads are taken not to decode; a string prints as itself and nil
    as <nil>, and this sample prints every other payload as the empty
    string. *)
Definition plainTags (data : Value) : option (list string) :=
  match data with
  | VNil => Some []
  | VStrs l => Some l
  | _ => None
  end.

Definition plainKeyValExpire (data : Value) : option KeyValExpire :=
  match data with
  | VNil => Some {| Key := ""; Val := VNil; ExpireSecs := 0 |}
  | VKeyValExpire k v secs => Some {| Key := k; Val := v; ExpireSecs := secs |}
  | VKeyVal k v => Some {| Key := k; Val := v; ExpireSecs := 0 |}
  | _ => None
  end.

Definition plainSprint (data : Value) : string :=
  match data with
  | VStr s => s
  | VNil => "<nil>"
  | _ => ""
  end.

Definition Plain : DataLib :=
  {| DecodeTags := plainTags; DecodeKeyValExpire := plainKeyValExpire;
     Sprint := plainSprint |}.

(** A world with nothing scripted and nothing done. *)
Definition idle : World :=
  {| sockWrites := []; sockReads := []; clock := []; dials := [];
     ranges := []; selects := []; nextChan := O; trace := [] |}.

(** ** Sample inputs *)

Definition eofErr : GoErr :=
  {| asOpError := None; asErrno := None; isDeadlineExceeded := false;
     isEOF := true; isClosedPipe := false |}.

(** A client connection as [NewClientIO] builds it, refreshed at 1000. *)
Definition clientConn : BanConn :=
  {| Conn := Some 1%nat; Tags := Some ∅; Remote := "srv:9001";
     Listens := Some (<["onGetValRes" := CbOnGetValRes]> ∅);
     RefreshMS := 1000; Ready := true;
     DoConnect := Some (DialLoop "srv:9001"); ReInitConn := None |}.

(** Server-side connections as [WrapConn] builds them: one subscribed to
    "px", one without subscriptions, one subscribed but no longer ready. *)
Definition serverConn (s : sock) (remote : string) (tags : gmap string bool)
    (ready : bool) : BanConn :=
  {| Conn := Some s; Tags := Some tags; Remote := remote;
     Listens := Some (<["unsubscribe" := CbUnSubscribe]>
                        (<["subscribe" := CbSubscribe]>
                           (<["onSetVal" := CbOnSetVal]>
                              (<["onGetVal" := CbOnGetVal]> ∅))));
     RefreshMS := 1000; Ready := ready; DoConnect := None; ReInitConn := None |}.

Definition pxSubscriber : BanConn := serverConn 1%nat "a:1" {["px" := true]} true.

Definition pxBystander : BanConn := serverConn 2%nat "b:2" ∅ true.

Definition pxGone : BanConn := serverConn 3%nat "c:3" {["px" := true]} false.

Definition pxServer : Server.ServerIO :=
  {| Server.Addr := ":9001"; Server.Name := "spider";
     Server.Conns := [pxSubscriber; pxBystander; pxGone];
     Server.Data := Some ∅; Server.DataExp := None; Server.InitConn := None |}.

Definition pxMsg : IOMsg := {| Action := "px"; Data := VInt 100 |}.

(** A world in which two socket writes succeed. *)
Definition pxWorld : World :=
  {| sockWrites := [None; None]; sockReads := []; clock := []; dials := [];
     ranges := []; selects := []; nextChan := O; trace := [] |}.

(** A server whose two maps are allocated, empty and with the entry a
    set of "t" with a TTL leaves. *)
Definition allocatedServer : Server.ServerIO :=
  {| Server.Addr := ":9001"; Server.Name := "spider"; Server.Conns := [];
     Server.Data := Some ∅; Server.DataExp := Some ∅; Server.InitConn := None |}.

Definition ttlServer : Server.ServerIO :=
  {| Server.Addr := ":9001"; Server.Name := "spider"; Server.Conns := [];
     Server.Data := Some {["t" := VStr "x"]};
     Server.DataExp := Some {["t" := 6000]}; Server.InitConn := None |}.

(** The process of a server that holds the lock "job" with nonce 41. *)
Definition lockServer : Server.ServerIO :=
  {| Server.Addr := ":9001"; Server.Name := "spider"; Server.Conns := [];
     Server.Data := Some {["lock_job" := VInt 41]};
     Server.DataExp := None; Server.InitConn := None |}.


(** A client as [NewClientIO] builds it, and a world in which the two
    socket writes of its request succeed and the [select] ends as given. *)
Definition kvClient : Client.ClientIO :=
  {| Client.conn := clientConn; Client.Addr := "srv:9001"; Client.waits := Some ∅ |}.

Definition kvWorld (outcome : option Value) : World :=
  {| sockWrites := [None; None]; sockReads := []; clock := []; dials := [];
     ranges := []; selects := [outcome]; nextChan := O; trace := [] |}.

(** A server that holds 7 under "k". *)
Definition kvServer : Server.ServerIO :=
  {| Server.Addr := ":9001"; Server.Name := "spider"; Server.Conns := [];
     Server.Data := Some {["k" := VInt 7]};
     Server.DataExp := None; Server.InitConn := None |}.

(** The frames of a peer that subscribes to "px" and then asks for "k",
    and the frame of the answer, in the codec [Wire]. *)
Definition subscribeFrame : bytes :=
  120 :: 156 :: 2 :: 9 :: codes "subscribe" ++ 2 :: codes "px".

Definition getValFrame : bytes :=
  120 :: 156 :: 1 :: 8 :: codes "onGetVal" ++ codes "k".

Definition getValResFrame : bytes :=
  120 :: 156 :: 3 :: 7 :: 11 :: codes "onGetValRes" ++ codes "k".

(** One order of the range over the table of a server-side connection. *)
Definition serverOrder : list (string * ConnCB) :=
  [("unsubscribe", CbUnSubscribe); ("onGetVal", CbOnGetVal);
   ("subscribe", CbSubscribe); ("onSetVal", CbOnSetVal)].

(** A world in which the two frames arrive and the next read meets EOF,
    and the two socket writes of the answer succeed. *)
Definition peerWorld : World :=
  {| sockWrites := [None; None];
     sockReads := [([16; 0; 0; 0], None); (subscribeFrame, None);
                   ([13; 0; 0; 0], None); (getValFrame, None);
                   ([], Some eofErr)];
     clock := []; dials := []; ranges := [serverOrder; serverOrder];
     selects := []; nextChan := O; trace := [] |}.



(** The request of [GetVal] for the key "k". *)
Definition kvRequest : IOMsg := {| Action := "onGetVal"; Data := VStr "k" |}.

(** A world in which the first socket write fails with EOF, a dial
    succeeds with socket 2 at time 1500, and the socket writes after it
    succeed. *)
Definition redialWorld : World :=
  {| sockWrites := [Some eofErr; None; None]; sockReads := [];
     clock := [1500]; dials := [inr 2%nat]; ranges := [];
     selects := []; nextChan := O; trace := [] |}.

(** ** Derived notions used in the statements *)


(** The connections [Broadcast] keeps, and those it sends to. *)
Definition isOpen (c : BanConn) : bool := negb (IsClosed c).

Definition isTarget (action : string) (c : BanConn) : bool :=
  negb (IsClosed c) && HasTag c action.

Definition isMutexEvent (e : Event) : bool :=
  match e with
  | EvLock | EvUnlock => true
  | _ => false
  end.

(** [w'] continues [w] by events that do not touch the mutex. *)
Definition quiet (w w' : World) : Prop :=
  exists evs,
    trace w' = (trace w ++ evs)%list
    /\ forallb (fun e => negb (isMutexEvent e)) evs = true.

(** [w'] continues [w]: nothing that has happened is forgotten. *)
Definition extends (w w' : World) : Prop :=
  exists evs, trace w' = (trace w ++ evs)%list.

Definition isSockWrite (e : Event) : bool :=
  match e with
  | EvSockWrite _ _ => true
  | _ => false
  end.

(** What [n] failed rounds of the dial loop leave in the trace. *)
Fixpoint failedDials (addr : string) (n : nat) : list Event :=
  match n with
  | O => []
  | S n' =>
    EvDial addr :: EvLog "error" "connect fail, sleep 10s and retry.."
      :: EvSleep 10000 :: failedDials addr n'
  end.

(** The events of [c.ReInitConn()] when the hook is set. *)
Definition reinitEvents (c : BanConn) : list Event :=
  match ReInitConn c with
  | Some cb => [EvReInit cb]
  | None => []
  end.

(** An error in whose chain [errors.As] finds a [*syscall.Errno] that
    points to ECONNRESET, and no [*net.OpError]. *)
Definition resetErrno : GoErr :=
  {| asOpError := None; asErrno := Some ECONNRESET; isDeadlineExceeded := false;
     isEOF := false; isClosedPipe := false |}.

(** A connection reset seen through a [*net.OpError] of a read. *)
Definition resetOpErr : GoErr :=
  {| asOpError := Some {| op_Timeout := false; op_Temporary := false; op_Op := "read" |};
     asErrno := Some ECONNRESET; isDeadlineExceeded := false;
     isEOF := false; isClosedPipe := false |}.

(** [w'] continues [w] by events that are no socket writes. *)
Definition readOnly (w w' : World) : Prop :=
  exists evs,
    trace w' = (trace w ++ evs)%list
    /\ forallb (fun e => negb (isSockWrite e)) evs = true.

(** Two connections with the same subscriptions, handlers, remote name
    and hooks. *)
Definition sameTables (c c' : BanConn) : Prop :=
  Tags c' = Tags c /\ Listens c' = Listens c /\ Remote c' = Remote c
  /\ DoConnect c' = DoConnect c /\ ReInitConn c' = ReInitConn c.


(** Unfolding the monad of [M]. *)
Ltac run :=
  repeat (progress (unfold mbind, M_bind, mret, M_ret, emit, panic, stuck; simpl)).

(** * Theorems *)

(** ** The frame codec *)

Lemma uncodes_codes (s : string) : uncodes (codes s) = s.
Proof.
  unfold uncodes, codes. rewrite map_map.
  rewrite <- (string_of_list_ascii_of_string s) at 2. f_equal.
  induction (list_ascii_of_string s) as [|a l IH]; simpl; [reflexivity|].
  rewrite N2Z.id, ascii_N_embedding, IH. reflexivity.
Qed.

Lemma codes_length (s : string) : length (codes s) = String.length s.
Proof.
  unfold codes. rewrite length_map.
  induction s as [|a s IH]; simpl; [reflexivity|]. rewrite IH. reflexivity.
Qed.

Lemma Loopback_laws : CodecLaws Loopback.
Proof.
  split.
  - intros [a d] raw; simpl. unfold loopMarshal; simpl.
    destruct d; intros H; inversion H; subst; unfold loopUnmarshal.
    + rewrite uncodes_codes. reflexivity.
    + rewrite Nat2Z.id, <- (codes_length a).
      rewrite firstn_app, skipn_app, Nat.sub_diag, firstn_all, skipn_all.
      rewrite app_nil_r, drop_0, app_nil_l, !uncodes_codes. reflexivity.
  - intros raw z; simpl. unfold loopDeflate. intros H; inversion H; subst.
    reflexivity.
Qed.

(** C1. Frame codec round-trip: whenever an envelope [E] encodes (JSON
    marshal, then zlib compress) to [frame], decoding [frame] (zlib
    decompress, then JSON unmarshal) succeeds and yields [E].  The JSON and
    zlib libraries enter through their round-trip laws [CodecLaws]. *)
Theorem frame_codec_roundtrip (L : CodecLib) (HL : CodecLaws L)
    (E : IOMsg) (frame : bytes) :
  encode E = inr frame -> decode frame = inr E.
Proof.
  unfold encode, decode, compress, deCompress.
  destruct (Marshal E) as [e|raw] eqn:HM; [discriminate|].
  destruct (zlibDeflate raw) as [e|z] eqn:HZ; [discriminate|].
  intros H; inversion H; subst frame.
  rewrite (Inflate_Deflate _ _ HZ).
  rewrite (Unmarshal_Marshal _ _ HM). reflexivity.
Qed.

Lemma frame_codec_roundtrip_witness :
  exists frame,
    @encode Loopback kvRequest = inr frame /\ @decode Loopback frame = inr kvRequest.
Proof.
  eexists. split; [reflexivity|].
  apply (frame_codec_roundtrip Loopback Loopback_laws kvRequest). reflexivity.
Defined.

(** ** The write path *)

(** C10. Payload-write failure is terminal: when [Write] gets the 4-byte
    length prefix through and the write of the payload then fails with
    [e], the call returns an error of kind [ErrNetWriteFail] wrapping [e],
    leaves the connection with its readiness flag false and its socket and
    every other field as they were, and does nothing but the two socket
    writes: no log, no close, no sleep, no dial -- whatever hook the
    connection has and however [e] classifies. *)
Theorem Write_payload_failure_is_terminal
    (fuel : nat) (c : BanConn) (data : bytes) (s : sock) (e : GoErr)
    (w : World) (later : list (option GoErr)) :
  Conn c = Some s ->
  sockWrites w = None :: Some e :: later ->
  exists w',
    Write (S fuel) c data w
      = Done (Some (errs_New ErrNetWriteFail e), set_Ready false c, w')
    /\ trace w' = (trace w ++ [EvSockWrite s (PutUint32 (uint32 (Z.of_nat (length data))));
                               EvSockWrite s data])%list
    /\ sockWrites w' = later
    /\ dials w' = dials w /\ clock w' = clock w.
Proof.
  intros HC HW. eexists. simpl. unfold connWrite. rewrite HC.
  run. unfold sockWrite at 1. rewrite HW. simpl.
  unfold sockWrite. simpl.
  split; [reflexivity|]. simpl. rewrite <- app_assoc. auto.
Qed.

Lemma Write_payload_failure_is_terminal_witness :
  DoConnect clientConn <> None /\
  fst (getErrType (Some eofErr)) = ErrNetConnect /\
  exists w',
    Write 1 clientConn [7]
      {| sockWrites := [None; Some eofErr]; sockReads := []; clock := [];
         dials := []; ranges := []; selects := []; nextChan := O; trace := [] |}
      = Done (Some (errs_New ErrNetWriteFail eofErr), set_Ready false clientConn, w')
    /\ trace w' = ([] ++ [EvSockWrite 1%nat (PutUint32 (uint32 (Z.of_nat (length [7]))));
                          EvSockWrite 1%nat [7]])%list
    /\ sockWrites w' = []
    /\ dials w' = [] /\ clock w' = [].
Proof.
  split; [discriminate|]. split; [reflexivity|].
  apply (Write_payload_failure_is_terminal 0 clientConn [7] 1%nat eofErr
           {| sockWrites := [None; Some eofErr]; sockReads := []; clock := [];
              dials := []; ranges := []; selects := []; nextChan := O; trace := [] |} []);
    reflexivity.
Defined.

(** ** The reconnect protocol *)

(** [connect(true)] on a connection that is ready and was refreshed less
    than 2000 ms ago takes and releases the mutex and does nothing else. *)
Lemma connect_lock_fresh_skips
    (fuel : nat) (c : BanConn) (now : Z) (w : World) (later : list Z) :
  Ready c = true ->
  clock w = now :: later ->
  sub64 now (RefreshMS c) < 2000 ->
  connect fuel true c w
    = Done (c, {| sockWrites := sockWrites w; sockReads := sockReads w;
                  clock := later; dials := dials w; ranges := ranges w;
                  selects := selects w; nextChan := nextChan w;
                  trace := (trace w ++ [EvLock; EvUnlock])%list |}).
Proof.
  intros HR HC Hlt. unfold connect. rewrite HR. run.
  unfold TimeMS. simpl. rewrite HC.
  rewrite bool_decide_true by exact Hlt. simpl.
  rewrite <- app_assoc. reflexivity.
Qed.

(** The read trigger: when [Read] observes an error that classifies as
    [ErrNetConnect] on a connection with a reconnect hook, and the
    connection is ready and [now - RefreshMS] (in int64 arithmetic) is
    below 2000, then between the failed socket read and the retry of
    [Read] the mutex is taken and released and nothing else happens; the
    retry runs on the same connection value. *)
Lemma Read_fresh_skip
    (fuel : nat) (c : BanConn) (s : sock) (e : GoErr) (got : bytes) (now : Z)
    (w : World) (laterR : list (bytes * option GoErr)) (laterC : list Z) :
  Conn c = Some s ->
  DoConnect c <> None ->
  fst (getErrType (Some e)) = ErrNetConnect ->
  sockReads w = (got, Some e) :: laterR ->
  clock w = now :: laterC ->
  Ready c = true ->
  sub64 now (RefreshMS c) < 2000 ->
  Read (S fuel) c w
    = Read fuel c
        {| sockWrites := sockWrites w; sockReads := laterR;
           clock := laterC; dials := dials w; ranges := ranges w;
           selects := selects w; nextChan := nextChan w;
           trace := (trace w ++ [EvSockRead s 4;
                                 EvLog "warn" "read fail, wait 3s and retry";
                                 EvLock; EvUnlock])%list |}.
Proof.
  intros HC HD HE HR HK HRdy Hlt.
  cbn [Read]. unfold connRead. rewrite HC.
  unfold mbind at 1, M_bind at 1, sockRead at 1. rewrite HR.
  rewrite HE, !bool_decide_true by (exact HD || reflexivity).
  cbn [andb].
  unfold mbind at 1, M_bind at 1, emit at 1.
  unfold mbind at 1, M_bind at 1.
  erewrite connect_lock_fresh_skips; [|exact HRdy|simpl; exact HK|exact Hlt].
  simpl. rewrite <- !app_assoc. reflexivity.
Qed.

(** The write trigger: when the write of the length prefix fails with an
    error that classifies as [ErrNetConnect] on a connection with a
    reconnect hook, [Write] clears the readiness flag, logs, and calls
    [connect(false)] on the connection with the flag cleared, whatever
    the flag was before the write. *)
Lemma Write_enters_recovery_not_ready
    (fuel : nat) (c : BanConn) (s : sock) (e : GoErr) (data : bytes)
    (w : World) (laterW : list (option GoErr)) :
  Conn c = Some s ->
  DoConnect c <> None ->
  fst (getErrType (Some e)) = ErrNetConnect ->
  sockWrites w = Some e :: laterW ->
  Write (S fuel) c data w
    = (c1 ← connect fuel false (set_Ready false c); Write fuel c1 data)
        {| sockWrites := laterW; sockReads := sockReads w;
           clock := clock w; dials := dials w; ranges := ranges w;
           selects := selects w; nextChan := nextChan w;
           trace := (trace w
                     ++ [EvSockWrite s (PutUint32 (uint32 (Z.of_nat (length data))));
                         EvLog "warn" "write fail, wait 3s and retry"])%list |}.
Proof.
  intros HC HD HE HW.
  cbn [Write]. unfold connWrite. rewrite HC.
  unfold mbind at 1, M_bind at 1, sockWrite at 1. rewrite HW.
  rewrite HE. change (DoConnect (set_Ready false c)) with (DoConnect c).
  rewrite !bool_decide_true by (exact HD || reflexivity).
  cbn [andb].
  unfold mbind at 1, M_bind at 1, emit at 1.
  simpl. rewrite <- !app_assoc. reflexivity.
Qed.

(** C8. Reconnect freshness skip.  Recovery is triggered where [Read] or
    [Write] observes an error that classifies as [ErrNetConnect] on a
    connection with a reconnect hook, and calls [connect].
    Triggered by a read: if the connection is ready and
    [now - RefreshMS] (in int64 arithmetic) is below 2000, the recovery is
    skipped entirely: between the failed socket read and the retry of
    [Read] the mutex is taken and released and nothing else happens; the
    retry runs on the same connection value (socket, readiness and
    [RefreshMS] untouched), with no close, sleep or dial in the trace.
    Triggered by a write: [Write] has cleared the readiness flag before
    it calls [connect], so the recovery is entered with readiness false
    and the condition of the skip does not arise there. *)
Theorem recovery_fresh_skip
    (fuel : nat) (c : BanConn) (s : sock) (e : GoErr) (w : World) :
  Conn c = Some s ->
  DoConnect c <> None ->
  fst (getErrType (Some e)) = ErrNetConnect ->
  (forall (got : bytes) (laterR : list (bytes * option GoErr)) (now : Z) (laterC : list Z),
     sockReads w = (got, Some e) :: laterR ->
     clock w = now :: laterC ->
     Ready c = true ->
     sub64 now (RefreshMS c) < 2000 ->
     Read (S fuel) c w
       = Read fuel c
           {| sockWrites := sockWrites w; sockReads := laterR;
              clock := laterC; dials := dials w; ranges := ranges w;
              selects := selects w; nextChan := nextChan w;
              trace := (trace w ++ [EvSockRead s 4;
                                    EvLog "warn" "read fail, wait 3s and retry";
                                    EvLock; EvUnlock])%list |})
  /\ (forall (data : bytes) (laterW : list (option GoErr)),
        sockWrites w = Some e :: laterW ->
        Write (S fuel) c data w
          = (c1 ← connect fuel false (set_Ready false c); Write fuel c1 data)
              {| sockWrites := laterW; sockReads := sockReads w;
                 clock := clock w; dials := dials w; ranges := ranges w;
                 selects := selects w; nextChan := nextChan w;
                 trace := (trace w
                           ++ [EvSockWrite s (PutUint32 (uint32 (Z.of_nat (length data))));
                               EvLog "warn" "write fail, wait 3s and retry"])%list |}
        /\ Ready (set_Ready false c) = false).
Proof.
  intros HC HD HE. split.
  - intros got laterR now laterC HR HK HRdy Hlt.
    exact (Read_fresh_skip fuel c s e got now w laterR laterC HC HD HE HR HK HRdy Hlt).
  - intros data laterW HW. split; [|reflexivity].
    exact (Write_enters_recovery_not_ready fuel c s e data w laterW HC HD HE HW).
Qed.

(** A ready client connection refreshed 500 ms ago: a read that meets EOF
    skips the recovery and retries on socket 1; a write that meets EOF
    enters [connect(false)] with the flag cleared. *)
Lemma recovery_fresh_skip_witness :
  Read 3 clientConn
    {| sockWrites := []; sockReads := [([], Some eofErr); ([2; 0; 0; 0], None); ([5; 6], None)];
       clock := [1500]; dials := []; ranges := []; selects := [];
       nextChan := O; trace := [] |}
  = Read 2 clientConn
    {| sockWrites := []; sockReads := [([2; 0; 0; 0], None); ([5; 6], None)];
       clock := []; dials := []; ranges := []; selects := [];
       nextChan := O;
       trace := [EvSockRead 1%nat 4; EvLog "warn" "read fail, wait 3s and retry";
                 EvLock; EvUnlock] |}
  /\ Write 3 clientConn [7] redialWorld
     = (c1 ← connect 2 false (set_Ready false clientConn); Write 2 c1 [7])
         {| sockWrites := [None; None]; sockReads := []; clock := [1500];
            dials := [inr 2%nat]; ranges := []; selects := []; nextChan := O;
            trace := [EvSockWrite 1%nat [1; 0; 0; 0];
                      EvLog "warn" "write fail, wait 3s and retry"] |}.
Proof.
  assert (HD : DoConnect clientConn <> None) by discriminate.
  split.
  - apply (proj1 (recovery_fresh_skip 2 clientConn 1%nat eofErr
                    {| sockWrites := [];
                       sockReads := [([], Some eofErr); ([2; 0; 0; 0], None); ([5; 6], None)];
                       clock := [1500]; dials := []; ranges := []; selects := [];
                       nextChan := O; trace := [] |}
                    eq_refl HD eq_refl)
             [] [([2; 0; 0; 0], None); ([5; 6], None)] 1500 []);
      reflexivity.
  - apply (proj1 (proj2 (recovery_fresh_skip 2 clientConn 1%nat eofErr redialWorld
                           eq_refl HD eq_refl)
                    [7] [None; None] eq_refl)).
Defined.

(** ** The write mutex *)

Lemma bind_Done {A B : Type} (m : M A) (f : A -> M B) (w : World) (r : B * World) :
  (m ≫= f) w = Done r ->
  exists a w1, m w = Done (a, w1) /\ f a w1 = Done r.
Proof.
  unfold mbind, M_bind. destruct (m w) as [[a w1]| |]; try discriminate.
  intros H. exists a, w1. split; [reflexivity|exact H].
Qed.

Lemma quiet_same_trace (w w' : World) : trace w' = trace w -> quiet w w'.
Proof. intros H. exists []. rewrite app_nil_r. split; [exact H|reflexivity]. Qed.

Lemma quiet_refl (w : World) : quiet w w.
Proof. apply quiet_same_trace. reflexivity. Qed.

Lemma quiet_trans (w1 w2 w3 : World) : quiet w1 w2 -> quiet w2 w3 -> quiet w1 w3.
Proof.
  intros [e1 [H1 F1]] [e2 [H2 F2]]. exists (e1 ++ e2)%list.
  rewrite H2, H1, <- app_assoc. split; [reflexivity|].
  rewrite forallb_app, F1, F2. reflexivity.
Qed.

Lemma emit_quiet (e : Event) (w w' : World) (u : unit) :
  isMutexEvent e = false -> emit e w = Done (u, w') -> quiet w w'.
Proof.
  intros He H. inversion H; subst. exists [e]. simpl. rewrite He. split; reflexivity.
Qed.

Lemma TimeMS_quiet (w w' : World) (now : Z) : TimeMS w = Done (now, w') -> quiet w w'.
Proof.
  unfold TimeMS. destruct (clock w); [discriminate|].
  intros H; inversion H; subst. apply quiet_same_trace. reflexivity.
Qed.

Lemma sockWrite_Done (s : sock) (data : bytes) (w w' : World) (r : option GoErr) :
  sockWrite s data w = Done (r, w') -> trace w' = (trace w ++ [EvSockWrite s data])%list.
Proof.
  unfold sockWrite. destruct (sockWrites w); [discriminate|].
  intros H; inversion H; subst. reflexivity.
Qed.

Lemma sockWrite_quiet (s : sock) (data : bytes) (w w' : World) (r : option GoErr) :
  sockWrite s data w = Done (r, w') -> quiet w w'.
Proof. intros H. exists [EvSockWrite s data]. split; [eapply sockWrite_Done, H|reflexivity]. Qed.

Lemma connWrite_quiet (c : BanConn) (data : bytes) (w w' : World) (r : option GoErr) :
  connWrite c data w = Done (r, w') -> quiet w w'.
Proof.
  unfold connWrite. destruct (Conn c); [apply sockWrite_quiet|discriminate].
Qed.

Lemma netDial_quiet (addr : string) (w w' : World) (r : GoErr + sock) :
  netDial addr w = Done (r, w') -> quiet w w'.
Proof.
  unfold netDial. destruct (dials w); [discriminate|].
  intros H; inversion H; subst. exists [EvDial addr]. split; reflexivity.
Qed.

Lemma dialLoop_quiet (fuel : nat) (addr : string) (c c' : BanConn) (w w' : World) :
  dialLoop fuel addr c w = Done (c', w') -> quiet w w'.
Proof.
  revert w. induction fuel as [|fuel IH]; intros w; [discriminate|].
  cbn [dialLoop]. intros H.
  apply bind_Done in H as (r & w1 & H1 & H).
  apply netDial_quiet in H1.
  destruct r as [err|s].
  - apply bind_Done in H as (u1 & w2 & H2 & H).
    apply bind_Done in H as (u2 & w3 & H3 & H).
    apply emit_quiet in H2; [|reflexivity]. apply emit_quiet in H3; [|reflexivity].
    apply IH in H. eauto using quiet_trans.
  - inversion H; subst. exact H1.
Qed.

Lemma reconnect_quiet (fuel : nat) (c c' : BanConn) (w w' : World) :
  reconnect fuel c w = Done (c', w') -> quiet w w'.
Proof.
  unfold reconnect. intros H.
  apply bind_Done in H as (c1 & w1 & H1 & H).
  assert (Q1 : quiet w w1).
  { destruct (Conn (set_Ready false c)).
    - apply bind_Done in H1 as (u & w0 & H0 & H1).
      apply emit_quiet in H0; [|reflexivity].
      inversion H1; subst. exact H0.
    - inversion H1; subst. apply quiet_refl. }
  apply bind_Done in H as (u & w2 & H2 & H).
  apply emit_quiet in H2; [|reflexivity].
  apply bind_Done in H as (c2 & w3 & H3 & H).
  assert (Q3 : quiet w2 w3).
  { unfold callDoConnect in H3. destruct (DoConnect c1) as [[addr]|]; [|discriminate].
    eapply dialLoop_quiet, H3. }
  apply bind_Done in H as (now & w4 & H4 & H).
  apply TimeMS_quiet in H4.
  assert (Q5 : quiet w4 w').
  { destruct (Conn (set_RefreshMS now c2)).
    - apply bind_Done in H as (u5 & w5 & H5 & H).
      inversion H; subst.
      destruct (ReInitConn (set_RefreshMS now c2)).
      + eapply emit_quiet, H5. reflexivity.
      + inversion H5; subst. apply quiet_refl.
    - inversion H; subst. apply quiet_refl. }
  eauto using quiet_trans.
Qed.

Lemma Write_quiet (fuel : nat) (c : BanConn) (data : bytes) (w w' : World)
    (r : option Error * BanConn) :
  Write fuel c data w = Done (r, w') -> quiet w w'.
Proof.
  revert c w. induction fuel as [|fuel IH]; intros c w; [discriminate|].
  cbn [Write]. intros H.
  apply bind_Done in H as (e1 & w1 & H1 & H).
  apply connWrite_quiet in H1.
  destruct e1 as [e|].
  - destruct (_ && _).
    + apply bind_Done in H as (u & w2 & H2 & H).
      apply emit_quiet in H2; [|reflexivity].
      apply bind_Done in H as (c2 & w3 & H3 & H).
      apply reconnect_quiet in H3. apply IH in H.
      eauto using quiet_trans.
    + inversion H; subst. exact H1.
  - apply bind_Done in H as (e2 & w2 & H2 & H).
    apply connWrite_quiet in H2.
    assert (w' = w2) by (destruct e2; inversion H; reflexivity). subst.
    eauto using quiet_trans.
Qed.

(** A [Write] that returns began with a socket write of the length. *)
Lemma Write_starts_with_socket_write (fuel : nat) (c : BanConn) (data : bytes)
    (w w' : World) (r : option Error * BanConn) :
  Write fuel c data w = Done (r, w') ->
  exists s evs,
    Conn c = Some s /\
    trace w' = (trace w ++ EvSockWrite s (PutUint32 (uint32 (Z.of_nat (length data)))) :: evs)%list.
Proof.
  destruct fuel as [|fuel]; [discriminate|].
  intros H. pose proof H as HQ.
  cbn [Write] in H.
  apply bind_Done in H as (e1 & w1 & H1 & H).
  unfold connWrite in H1. destruct (Conn c) as [s|] eqn:HC; [|discriminate].
  apply sockWrite_Done in H1.
  assert (Q : quiet w1 w').
  { destruct e1 as [e|].
    - destruct (_ && _).
      + apply bind_Done in H as (u & w2 & H2 & H).
        apply emit_quiet in H2; [|reflexivity].
        apply bind_Done in H as (c2 & w3 & H3 & H).
        apply reconnect_quiet in H3. apply Write_quiet in H.
        eauto using quiet_trans.
      + inversion H; subst. apply quiet_refl.
    - apply bind_Done in H as (e2 & w2 & H2 & H).
      apply connWrite_quiet in H2.
      assert (w' = w2) by (destruct e2; inversion H; reflexivity). subst. exact H2. }
  destruct Q as [evs [HT _]]. exists s, evs. split; [reflexivity|].
  rewrite HT, H1, <- app_assoc. reflexivity.
Qed.

Lemma writesUnderLock_quiet (evs rest : list Event) :
  forallb (fun e => negb (isMutexEvent e)) evs = true ->
  writesUnderLock true (evs ++ rest) = writesUnderLock true rest.
Proof.
  induction evs as [|e evs IH]; simpl; [reflexivity|].
  intros H. apply andb_prop in H as [He H].
  destruct e; simpl in *; try discriminate; auto.
Qed.

(** X14. The sibling path: every socket write of a [WriteMsg] that
    returns happens under the connection's mutex, reconnects and retries
    included. *)
Lemma WriteMsg_writes_under_lock (L : CodecLib) (fuel : nat) (c : BanConn) (msg : IOMsg)
    (w w' : World) (r : option Error * BanConn) :
  trace w = [] ->
  WriteMsg fuel c msg w = Done (r, w') ->
  writesUnderLock false (trace w') = true.
Proof.
  intros HT. unfold WriteMsg.
  destruct (Marshal msg) as [e|raw].
  { intros H; inversion H; subst. rewrite HT. reflexivity. }
  destruct (compress raw) as [e|z].
  { intros H; inversion H; subst. rewrite HT. reflexivity. }
  intros H.
  apply bind_Done in H as (u & w1 & H1 & H). inversion H1; subst; clear H1.
  apply bind_Done in H as (r1 & w2 & H2 & H).
  apply bind_Done in H as (u2 & w3 & H3 & H).
  inversion H; subst; clear H. inversion H3; subst; clear H3. simpl.
  apply Write_quiet in H2 as [evs [HE HF]]. simpl in HE.
  rewrite HE, HT. simpl.
  rewrite writesUnderLock_quiet by exact HF. reflexivity.
Qed.

(** ** Broadcast *)

Lemma scanConns_filter (conns : list BanConn) (action : string) :
  Server.scanConns conns action
  = (List.filter isOpen conns, List.filter (isTarget action) conns).
Proof.
  induction conns as [|c conns IH]; simpl; [reflexivity|].
  rewrite IH. unfold isOpen, isTarget.
  destruct (IsClosed c); simpl; [reflexivity|].
  destruct (HasTag c action); reflexivity.
Qed.

(** What [Broadcast] does with an envelope that encodes. *)
Lemma Broadcast_encoded (L : CodecLib) (s : Server.ServerIO) (msg : IOMsg) (frame : bytes) :
  encode msg = inr frame ->
  Server.Broadcast s msg
  = (None, Server.set_Conns (List.filter isOpen (Server.Conns s)) s,
     map (fun c => (c, frame)) (List.filter (isTarget (Action msg)) (Server.Conns s))).
Proof.
  intros HE. unfold Server.Broadcast. rewrite scanConns_filter.
  destruct (List.filter (isTarget (Action msg)) (Server.Conns s)) as [|c0 cur];
    [reflexivity|].
  unfold encode in HE. destruct (Marshal msg) as [e|raw]; [discriminate|].
  rewrite HE. reflexivity.
Qed.



(** What [Broadcast] does whatever the envelope: the roster is compacted,
    and a send goes only to a selected connection and carries the encoded
    envelope. *)
Lemma Broadcast_any (L : CodecLib) (s : Server.ServerIO) (msg : IOMsg) :
  Server.Conns (snd (fst (Server.Broadcast s msg))) = List.filter isOpen (Server.Conns s)
  /\ forall c b, In (c, b) (snd (Server.Broadcast s msg)) ->
       In c (List.filter (isTarget (Action msg)) (Server.Conns s))
       /\ encode msg = inr b.
Proof.
  unfold Server.Broadcast. rewrite scanConns_filter.
  destruct (List.filter (isTarget (Action msg)) (Server.Conns s)) as [|c0 cur] eqn:HF.
  { split; [reflexivity|]. intros c b []. }
  unfold encode. destruct (Marshal msg) as [e|raw].
  { split; [reflexivity|]. intros c b []. }
  destruct (compress raw) as [e|z].
  { split; [reflexivity|]. intros c b []. }
  split; [reflexivity|]. simpl. intros c b H.
  change (In (c, b) (map (fun c => (c, z)) (c0 :: cur))) in H.
  apply in_map_iff in H as (c1 & H1 & H2). inversion H1; subst. auto.
Qed.



(** C9 fails on the code. The goroutines of [Broadcast] call [Write]
    without the mutex: an open connection [c] of the roster that holds
    the tag gets a send of the frame, and whenever that send returns, its
    trace has a socket write outside any lock. *)
Theorem Broadcast_send_outside_mutex (L : CodecLib)
    (s : Server.ServerIO) (msg : IOMsg) (c : BanConn) (frame : bytes) :
  encode msg = inr frame ->
  In c (Server.Conns s) ->
  IsClosed c = false ->
  HasTag c (Action msg) = true ->
  In (c, frame) (snd (Server.Broadcast s msg))
  /\ forall (fuel : nat) (w w' : World) (c' : BanConn),
       trace w = [] ->
       Server.broadcastSend fuel c frame w = Done (c', w') ->
       writesUnderLock false (trace w') = false.
Proof.
  intros HE HI HC HT. split.
  { rewrite (Broadcast_encoded L s msg frame HE). simpl.
    apply in_map_iff. exists c. split; [reflexivity|].
    apply filter_In. unfold isTarget. rewrite HC, HT. tauto. }
  intros fuel w w' c' Hw H. unfold Server.broadcastSend in H.
  apply bind_Done in H as ([err c1] & w1 & H1 & H).
  apply Write_starts_with_socket_write in H1 as (s0 & evs & _ & HEv).
  rewrite Hw in HEv. simpl in HEv.
  assert (HW : exists more, trace w' = (trace w1 ++ more)%list).
  { destruct err.
    - apply bind_Done in H as (u & w2 & H2 & H). inversion H; subst.
      inversion H2; subst. simpl. eauto.
    - inversion H; subst. exists []. rewrite app_nil_r. reflexivity. }
  destruct HW as [more HW]. rewrite HW, HEv. reflexivity.
Qed.

Lemma Broadcast_send_outside_mutex_witness :
  exists frame w',
    @encode Loopback pxMsg = inr frame
    /\ In (pxSubscriber, frame) (snd (@Server.Broadcast Loopback pxServer pxMsg))
    /\ Server.broadcastSend 1 pxSubscriber frame pxWorld = Done (pxSubscriber, w')
    /\ writesUnderLock false (trace w') = false.
Proof.
  eexists _, _.
  pose proof (Broadcast_send_outside_mutex Loopback pxServer pxMsg pxSubscriber _
                eq_refl (or_introl eq_refl) eq_refl eq_refl) as [H1 H2].
  split; [reflexivity|]. split; [exact H1|].
  split; [reflexivity|].
  apply (H2 1%nat pxWorld _ pxSubscriber); reflexivity.
Defined.

(** ** The key/value store *)

Lemma wrap64_id (x : Z) : in_int64 x -> wrap64 x = x.
Proof.
  unfold in_int64, wrap64. intros H.
  rewrite Z.mod_small by lia. lia.
Qed.

(** C4 fails on the code. [NewBanServer] allocates [Data] and leaves
    [DataExp] nil, so a set with a value and a positive [ExpireSecs] on the
    server it builds panics at the assignment into [DataExp]: no later
    [get] returns the value. *)
Theorem SetVal_with_ttl_panics_on_new_server
    (addr name k : string) (v : Value) (secs now : Z) (w : World) (later : list Z) :
  v <> VNil ->
  0 < secs ->
  clock w = now :: later ->
  Server.SetVal (Server.NewBanServer addr name)
    {| Key := k; Val := v; ExpireSecs := secs |} w
  = Panic nilMapWrite.
Proof.
  intros Hv Hs Hc. unfold Server.SetVal. simpl.
  rewrite bool_decide_true by exact Hs.
  destruct v; try (exfalso; apply Hv; reflexivity);
    unfold mbind, M_bind, TimeMS; rewrite Hc; reflexivity.
Qed.

Lemma SetVal_with_ttl_panics_on_new_server_witness :
  Server.SetVal (Server.NewBanServer ":9001" "spider")
    {| Key := "t"; Val := VStr "x"; ExpireSecs := 1 |}
    {| sockWrites := []; sockReads := []; clock := [5000]; dials := [];
       ranges := []; selects := []; nextChan := O; trace := [] |}
  = Panic nilMapWrite.
Proof.
  apply (SetVal_with_ttl_panics_on_new_server ":9001" "spider" "t" (VStr "x") 1 5000
           {| sockWrites := []; sockReads := []; clock := [5000]; dials := [];
              ranges := []; selects := []; nextChan := O; trace := [] |} []);
    [discriminate|lia|reflexivity].
Defined.

(** X26. Only the allocation is missing: on a server whose two maps are
    allocated, a set at time [t] with [secs > 0] (and an expiry that fits
    int64) makes every [get] before [t + secs*1000] return the value and
    leave the store alone, and every [get] from then on return nil and
    remove both entries. *)
Lemma SetVal_GetVal_ttl_when_allocated
    (s : Server.ServerIO) (d : gmap string Value) (x : gmap string Z)
    (k : string) (v : Value) (secs t : Z) (w : World) (later : list Z) :
  Server.Data s = Some d ->
  Server.DataExp s = Some x ->
  v <> VNil ->
  0 < secs ->
  in_int64 (secs * 1000) ->
  in_int64 (t + secs * 1000) ->
  clock w = t :: later ->
  exists s' w',
    Server.SetVal s {| Key := k; Val := v; ExpireSecs := secs |} w = Done (s', w')
    /\ forall (t' : Z) (w1 : World) (later1 : list Z),
         clock w1 = t' :: later1 ->
         exists s'' w1',
           Server.GetVal s' k w1 = Done (if bool_decide (t' < t + secs * 1000)
                                         then (v, s') else (VNil, s''), w1')
           /\ mget (Server.Data s'') k = None
           /\ mget (Server.DataExp s'') k = None.
Proof.
  intros HD HX Hv Hs Hm Ha Hc.
  assert (HS : exists w',
    Server.SetVal s {| Key := k; Val := v; ExpireSecs := secs |} w
    = Done (Server.set_DataExp (Some (<[k := t + secs * 1000]> x))
              (Server.set_Data (Some (<[k := v]> d)) s), w')).
  { unfold Server.SetVal. simpl. rewrite HD. simpl.
    rewrite bool_decide_true by exact Hs.
    destruct v; try (exfalso; apply Hv; reflexivity);
      unfold mbind, M_bind, TimeMS; rewrite Hc; simpl; rewrite HX; simpl;
      unfold add64, mul64; rewrite (wrap64_id _ Hm), (wrap64_id _ Ha); eauto. }
  destruct HS as [w' HS]. eexists _, w'. split; [exact HS|].
  intros t' w1 later1 Hc1.
  unfold Server.GetVal. simpl. rewrite !lookup_insert_eq.
  unfold mbind, M_bind, TimeMS. rewrite Hc1.
  destruct (decide (t' < t + secs * 1000)) as [Hlt|Hge].
  - rewrite bool_decide_false by lia. rewrite bool_decide_true by exact Hlt.
    eexists (Server.set_DataExp (Some (delete k x)) (Server.set_Data (Some (delete k d)) s)), _.
    split; [reflexivity|]. simpl. rewrite !lookup_delete_eq. split; reflexivity.
  - rewrite bool_decide_true by lia. rewrite bool_decide_false by exact Hge.
    eexists _, _. split; [reflexivity|]. simpl. rewrite !lookup_delete_eq.
    split; reflexivity.
Qed.

(** C5 fails on the code. A set with a nil value deletes the key from
    [Data] only: an expiration entry of the key stays in [DataExp].  The
    value entry is gone and a following [get] returns nil. *)
Theorem SetVal_nil_keeps_expiration
    (s : Server.ServerIO) (k : string) (secs exp : Z) (w : World) :
  mget (Server.DataExp s) k = Some exp ->
  exists s',
    Server.SetVal s {| Key := k; Val := VNil; ExpireSecs := secs |} w = Done (s', w)
    /\ mget (Server.Data s') k = None
    /\ mget (Server.DataExp s') k = Some exp
    /\ Server.GetVal s' k w = Done (VNil, s', w).
Proof.
  intros HX. eexists. split; [reflexivity|]. simpl.
  assert (HD : mget (mdel k (Server.Data s)) k = None).
  { unfold mget, mdel. destruct (Server.Data s); [apply lookup_delete_eq|reflexivity]. }
  split; [exact HD|]. split; [exact HX|].
  unfold Server.GetVal. simpl. rewrite HD. reflexivity.
Qed.

Lemma SetVal_nil_keeps_expiration_witness :
  exists s',
    Server.SetVal ttlServer {| Key := "t"; Val := VNil; ExpireSecs := 0 |} idle
    = Done (s', idle)
    /\ mget (Server.Data s') "t" = None
    /\ mget (Server.DataExp s') "t" = Some 6000
    /\ Server.GetVal s' "t" idle = Done (VNil, s', idle).
Proof.
  apply (SetVal_nil_keeps_expiration ttlServer "t" 0 6000 idle). reflexivity.
Defined.

(** What the entry left behind does: "t" is set with a TTL of one second
    at 5000, deleted, and set again at 8000 without a TTL; the [get] at
    8001 finds the expiration of the first set and returns nil. *)
Lemma stale_expiration_expires_a_later_set :
  let at_ (t : Z) : World :=
    {| sockWrites := []; sockReads := []; clock := [t]; dials := [];
       ranges := []; selects := []; nextChan := O; trace := [] |} in
  exists s1 s2 s3 s4 w1 w2 w3 w4,
    Server.SetVal allocatedServer {| Key := "t"; Val := VStr "x"; ExpireSecs := 1 |} (at_ 5000)
      = Done (s1, w1)
    /\ Server.SetVal s1 {| Key := "t"; Val := VNil; ExpireSecs := 0 |} (at_ 7000) = Done (s2, w2)
    /\ Server.SetVal s2 {| Key := "t"; Val := VStr "y"; ExpireSecs := 0 |} (at_ 8000) = Done (s3, w3)
    /\ Server.GetVal s3 "t" (at_ 8001) = Done (VNil, s4, w4).
Proof.
  cbv zeta. eexists _, _, _, _, _, _, _, _.
  split; [vm_compute; reflexivity|].
  split; [vm_compute; reflexivity|].
  split; [vm_compute; reflexivity|].
  vm_compute; reflexivity.
Qed.

(** ** The lock release *)








(** ** The client's GetVal *)

(** C6, amended. [GetVal(key, timeout)] first sends the envelope
    ("onGetVal", key) with [WriteMsg].  If the send returns an error,
    [GetVal] returns nil with that error, and makes no channel and
    installs no waiter.  If the send succeeds, [GetVal] then makes a fresh
    channel, installs it in the waiters map under [key], and waits on it
    for [timeout] seconds (120 when [timeout] is zero; as int64
    nanoseconds); when the timer fires it closes the channel, removes the
    waiter and returns nil with no error; when a value is delivered it
    returns the value with no error, the waiter still installed. *)
Theorem GetVal_sends_then_installs (L : CodecLib)
    (fuel : nat) (c : Client.ClientIO) (key : string) (timeout : Z)
    (w w1 : World) (err : option Error) (bc : BanConn) :
  WriteMsg fuel (Client.conn c) {| Action := "onGetVal"; Data := VStr key |} w
    = Done (err, bc, w1) ->
  let secs := if bool_decide (timeout = 0) then 120 else timeout in
  let out := nextChan w1 in
  match err with
  | Some e =>
    Client.GetVal fuel c key timeout w = Done (VNil, Some e, Client.set_conn bc c, w1)
  | None =>
    forall (ws : gmap string chan) (r : option Value) (later : list (option Value)),
      Client.waits c = Some ws ->
      selects w1 = r :: later ->
      exists w2,
        match r with
        | Some res =>
          Client.GetVal fuel c key timeout w
            = Done (res, None, Client.set_waits (Some (<[key := out]> ws))
                                 (Client.set_conn bc c), w2)
          /\ trace w2 = (trace w1 ++ [EvMakeChan out; EvSelect out (mul64 Second secs)])%list
        | None =>
          Client.GetVal fuel c key timeout w
            = Done (VNil, None, Client.set_waits (Some (delete key ws))
                                  (Client.set_conn bc c), w2)
          /\ trace w2 = (trace w1 ++ [EvMakeChan out; EvSelect out (mul64 Second secs);
                                      EvCloseChan out])%list
        end
  end.
Proof.
  intros HW secs out.
  destruct err as [e|].
  { unfold Client.GetVal, mbind at 1, M_bind at 1. rewrite HW. reflexivity. }
  intros ws r later Hws Hsel.
  destruct r as [res|]; eexists;
    unfold Client.GetVal, mbind at 1, M_bind at 1; rewrite HW;
    unfold mbind at 1, M_bind at 1, makeChan at 1; simpl;
    rewrite Hws; simpl;
    unfold mbind at 1, M_bind at 1, selectRecv at 1; simpl; rewrite Hsel.
  - split; [reflexivity|]. simpl. rewrite <- app_assoc. reflexivity.
  - rewrite delete_insert_eq. unfold mbind, M_bind, emit.
    split; [reflexivity|]. simpl. rewrite <- !app_assoc. reflexivity.
Qed.

Lemma GetVal_sends_then_installs_witness :
  exists w2,
    @Client.GetVal Loopback 1 kvClient "k" 1 (kvWorld (Some (VStr "hello")))
      = Done (VStr "hello", None,
              Client.set_waits (Some (<["k" := O]> ∅)) (Client.set_conn clientConn kvClient),
              w2)
    /\ trace w2
       = [EvLock; EvSockWrite 1%nat [13; 0; 0; 0];
          EvSockWrite 1%nat (120 :: 156 :: 1 :: 8 :: codes "onGetVal" ++ codes "k");
          EvUnlock; EvMakeChan O; EvSelect O 1000000000].
Proof.
  pose proof (GetVal_sends_then_installs Loopback 1 kvClient "k" 1
                (kvWorld (Some (VStr "hello"))) _ None clientConn eq_refl
                ∅ (Some (VStr "hello")) [] eq_refl eq_refl) as [w2 [H1 H2]].
  exists w2. split; [exact H1|exact H2].
Defined.

(** C6 as stated fails on the code: the frame of the request is on the
    socket before the channel of the waiter is made, so before any
    waiter is installed.  Here the timer fires (default timeout). *)
Lemma GetVal_sends_before_installing :
  exists c' w',
    @Client.GetVal Loopback 1 kvClient "k" 0 (kvWorld None) = Done (VNil, None, c', w')
    /\ Client.waits kvClient = Some ∅
    /\ Client.waits c' = Some ∅
    /\ trace w'
       = [EvLock; EvSockWrite 1%nat [13; 0; 0; 0];
          EvSockWrite 1%nat (120 :: 156 :: 1 :: 8 :: codes "onGetVal" ++ codes "k");
          EvUnlock; EvMakeChan O; EvSelect O 120000000000; EvCloseChan O].
Proof.
  eexists _, _. split; [vm_compute; reflexivity|].
  split; [reflexivity|]. split; reflexivity.
Qed.

(** And when the send fails, no waiter is installed at all. *)
Lemma GetVal_send_failure_installs_nothing :
  exists c' w',
    @Client.GetVal Loopback 1 kvClient "k" 0
      {| sockWrites := [Some noErr]; sockReads := []; clock := []; dials := [];
         ranges := []; selects := []; nextChan := O; trace := [] |}
      = Done (VNil, Some (errs_New ErrNetUnknown noErr), c', w')
    /\ Client.waits c' = Some ∅
    /\ nextChan w' = O.
Proof.
  eexists _, _. split; [vm_compute; reflexivity|]. split; reflexivity.
Qed.

(** ** Handler dispatch *)

Lemma HasPrefix_nil (s : string) : HasPrefix s "" = true.
Proof. unfold HasPrefix. simpl. destruct s; reflexivity. Qed.

Lemma HasPrefix_cons (c a : ascii) (s p : string) :
  HasPrefix (String c s) (String a p) = Ascii.eqb c a && HasPrefix s p.
Proof.
  unfold HasPrefix. simpl.
  destruct (Ascii.eqb c a); simpl; [reflexivity|].
  apply andb_false_r.
Qed.

(** [HasPrefix s p] says that [s] begins with [p]. *)
Lemma HasPrefix_spec (s p : string) :
  HasPrefix s p = true <-> exists rest, s = p ++ rest.
Proof.
  revert s. induction p as [|a p IH]; intros s.
  - rewrite HasPrefix_nil. split; [intros _; exists s; reflexivity|reflexivity].
  - destruct s as [|c s].
    + split; [discriminate|]. intros [rest H]. discriminate.
    + rewrite HasPrefix_cons, andb_true_iff, Ascii.eqb_eq, IH. split.
      * intros [-> [rest ->]]. exists rest. reflexivity.
      * intros [rest H]. simpl in H. inversion H; subst. eauto.
Qed.

Lemma scanListens_Some (order : list (string * ConnCB)) (action prefix : string)
    (handle : ConnCB) :
  scanListens order action = Some (prefix, handle) ->
  HasPrefix action prefix = true
  /\ exists before after,
       order = (before ++ (prefix, handle) :: after)%list
       /\ forall p h, In (p, h) before -> HasPrefix action p = false.
Proof.
  induction order as [|[p h] order IH]; simpl; [discriminate|].
  destruct (HasPrefix action p) eqn:HP.
  - intros H; inversion H; subst. split; [exact HP|].
    exists [], order. split; [reflexivity|]. intros p0 h0 [].
  - intros H. apply IH in H as (H1 & before & after & H2 & H3).
    split; [exact H1|]. exists ((p, h) :: before), after. subst order.
    split; [reflexivity|]. intros p0 h0 [HI|HI]; [|eauto].
    inversion HI; subst. exact HP.
Qed.

Lemma scanListens_None (order : list (string * ConnCB)) (action : string) :
  scanListens order action = None ->
  forall p h, In (p, h) order -> HasPrefix action p = false.
Proof.
  induction order as [|[p h] order IH]; simpl; [intros _ p h []|].
  destruct (HasPrefix action p) eqn:HP; [discriminate|].
  intros H p0 h0 [HI|HI]; [inversion HI; subst; exact HP|eauto].
Qed.






(** ** The sample inputs come from the constructors *)

Lemma clientConn_from_NewClientIO :
  Client.NewClientIO "srv:9001"
    {| sockWrites := []; sockReads := []; clock := [1000]; dials := [inr 1%nat];
       ranges := []; selects := []; nextChan := O; trace := [] |}
  = Done (inr kvClient,
          {| sockWrites := []; sockReads := []; clock := []; dials := [];
             ranges := []; selects := []; nextChan := O;
             trace := [EvDial "srv:9001"] |}).
Proof. reflexivity. Qed.

Lemma pxSubscriber_from_WrapConn :
  (conn ← Server.WrapConn (Server.NewBanServer ":9001" "spider") 1%nat "a:1";
   Subscribe conn ["px"])
    {| sockWrites := []; sockReads := []; clock := [1000]; dials := [];
       ranges := []; selects := []; nextChan := O; trace := [] |}
  = Done (pxSubscriber, idle).
Proof. unfold pxSubscriber, serverConn. rewrite <- insert_empty. reflexivity. Qed.

(** The frames of the sample peer are what the codec [Wire] writes. *)
Lemma peer_frames_from_encode :
  @encode Wire {| Action := "subscribe"; Data := VStrs ["px"] |} = inr subscribeFrame
  /\ @encode Wire kvRequest = inr getValFrame
  /\ @encode Wire {| Action := "onGetValRes"; Data := VKeyVal "k" (VInt 7) |}
     = inr getValResFrame
  /\ serverOrder ≡ₚ map_to_list (listensOf pxBystander).
Proof.
  split; [reflexivity|]. split; [reflexivity|]. split; [reflexivity|].
  assert (H : bool_decide (serverOrder ≡ₚ map_to_list (listensOf pxBystander)) = true)
    by (vm_compute; reflexivity).
  apply bool_decide_eq_true in H. exact H.
Qed.

(** ** The length prefix *)

Lemma testbit_byte (x n : Z) :
  0 <= n -> Z.testbit (Z.land x 255) n = Z.testbit x n && (n <? 8)%Z.
Proof.
  intros Hn. change 255 with (Z.ones 8). rewrite Z.land_spec.
  destruct (Z.ltb_spec n 8).
  - rewrite Z.ones_spec_low by lia. reflexivity.
  - rewrite Z.ones_spec_high by lia. reflexivity.
Qed.

(** The four bytes [Write] sends decode to the length they encode. *)
Lemma Uint32_PutUint32 (v : Z) : 0 <= v < 2 ^ 32 -> Uint32 (PutUint32 v) = v.
Proof.
  intros Hv. unfold Uint32, PutUint32. cbn [nth].
  apply Z.bits_inj'. intros n Hn.
  rewrite !Z.lor_spec, !Z.shiftl_spec by lia.
  rewrite testbit_byte by lia.
  destruct (Z.ltb_spec n 8).
  { rewrite andb_true_r, !(Z.testbit_neg_r _ (n - _)) by lia.
    rewrite !orb_false_r. reflexivity. }
  rewrite andb_false_r, orb_false_l.
  destruct (Z.ltb_spec n 16).
  { rewrite testbit_byte, Z.shiftr_spec by lia.
    replace (n - 8 <? 8)%Z with true by (symmetry; apply Z.ltb_lt; lia).
    rewrite !(Z.testbit_neg_r _ (n - _)) by lia.
    rewrite andb_true_r, !orb_false_r. f_equal. lia. }
  destruct (Z.ltb_spec n 24).
  { rewrite !testbit_byte, !Z.shiftr_spec by lia.
    replace (n - 8 <? 8)%Z with false by (symmetry; apply Z.ltb_ge; lia).
    replace (n - 16 <? 8)%Z with true by (symmetry; apply Z.ltb_lt; lia).
    rewrite !(Z.testbit_neg_r _ (n - _)) by lia.
    rewrite andb_false_r, andb_true_r, orb_false_l, orb_false_r. f_equal. lia. }
  rewrite !testbit_byte, !Z.shiftr_spec by lia.
  replace (n - 8 <? 8)%Z with false by (symmetry; apply Z.ltb_ge; lia).
  replace (n - 16 <? 8)%Z with false by (symmetry; apply Z.ltb_ge; lia).
  rewrite !andb_false_r, !orb_false_l.
  destruct (Z.ltb_spec n 32).
  { replace (n - 24 <? 8)%Z with true by (symmetry; apply Z.ltb_lt; lia).
    rewrite andb_true_r. f_equal. lia. }
  replace (n - 24 <? 8)%Z with false by (symmetry; apply Z.ltb_ge; lia).
  rewrite andb_false_r. symmetry.
  destruct (Z.eq_dec v 0) as [->|Hz]; [apply Z.bits_0|].
  apply Z.bits_above_log2; [lia|].
  assert (Z.log2 v < 32) by (apply Z.log2_lt_pow2; lia). lia.
Qed.

(** A frame as [Write] sends it, delivered whole by the two socket reads
    of [Read], comes back as the payload. *)
Lemma Read_of_written_frame
    (fuel : nat) (c : BanConn) (s : sock) (data : bytes) (w : World)
    (later : list (bytes * option GoErr)) :
  Conn c = Some s ->
  Z.of_nat (length data) < 2 ^ 32 ->
  sockReads w = (PutUint32 (uint32 (Z.of_nat (length data))), None) :: (data, None) :: later ->
  exists w',
    Read (S fuel) c w = Done (inr data, c, w')
    /\ sockReads w' = later
    /\ trace w' = (trace w ++ [EvSockRead s 4; EvSockRead s (Z.of_nat (length data))])%list.
Proof.
  intros HC HL HR. cbn [Read]. unfold connRead. rewrite HC.
  unfold mbind at 1, M_bind at 1, sockRead at 1. rewrite HR.
  assert (HU : uint32 (Z.of_nat (length data)) = Z.of_nat (length data)).
  { unfold uint32. apply Z.mod_small. lia. }
  rewrite HU.
  replace (firstn (Z.to_nat 4) (PutUint32 (Z.of_nat (length data)) ++ repeat 0 (Z.to_nat 4)))
    with (PutUint32 (Z.of_nat (length data))) by reflexivity.
  rewrite Uint32_PutUint32 by lia.
  unfold mbind at 1, M_bind at 1, sockRead at 1. simpl.
  rewrite Nat2Z.id, firstn_app, Nat.sub_diag, firstn_all. simpl.
  rewrite app_nil_r. eexists. split; [reflexivity|]. simpl.
  rewrite <- app_assoc. auto.
Qed.

(** * Further properties of the code *)

(** ** Error classification *)

(** X1. The errors that set off a reconnect: [getErrType] answers
    [ErrNetConnect] exactly for an op error of a dial that is neither a
    timeout nor temporary, and, when the error is neither an op error nor
    a [*syscall.Errno], for EOF and closed pipe unless the deadline was
    exceeded.  An op error is never classified by the EOF or closed pipe
    it wraps; and an error found as a [*syscall.Errno] is always
    [ErrNetUnknown], ECONNRESET and EPIPE included, since the two
    [errors.Is] tests on the pointer never succeed. *)
Theorem getErrType_connect_iff (e : GoErr) :
  (fst (getErrType (Some e)) = ErrNetConnect <->
   match asOpError e with
   | Some o => op_Timeout o = false /\ op_Temporary o = false /\ op_Op o = "dial"
   | None =>
     asErrno e = None
     /\ isDeadlineExceeded e = false /\ (isEOF e = true \/ isClosedPipe e = true)
   end)
  /\ (asOpError e = None -> asErrno e <> None ->
      getErrType (Some e) = (ErrNetUnknown, "call_err")).
Proof.
  unfold getErrType. split.
  - destruct (asOpError e) as [o|].
    + destruct (op_Timeout o); simpl.
      { split; [discriminate|]. intros [H _]; discriminate. }
      destruct (op_Temporary o); simpl.
      { split; [discriminate|]. intros (_ & H & _); discriminate. }
      destruct (String.eqb_spec (op_Op o) "dial") as [Hd|Hd]; simpl.
      * tauto.
      * split; [discriminate|]. intros (_ & _ & H). contradiction.
    + destruct (asErrno e) as [n|]; simpl.
      { split; [discriminate|]. intros [H _]; discriminate. }
      destruct (isDeadlineExceeded e); simpl.
      { split; [discriminate|]. intros (_ & H & _); discriminate. }
      destruct (isEOF e); simpl; [tauto|].
      destruct (isClosedPipe e); simpl; [tauto|].
      split; [discriminate|]. intros (_ & _ & [H|H]); discriminate.
  - intros HO HE. rewrite HO. destruct (asErrno e) as [n|]; [reflexivity|].
    exfalso. apply HE. reflexivity.
Qed.

Lemma getErrType_connect_iff_witness :
  fst (getErrType (Some eofErr)) = ErrNetConnect
  /\ getErrType (Some resetErrno) = (ErrNetUnknown, "call_err").
Proof.
  split.
  - apply (proj2 (proj1 (getErrType_connect_iff eofErr))).
    split; [reflexivity|]. split; [reflexivity|]. left. reflexivity.
  - apply (proj2 (getErrType_connect_iff resetErrno)); [reflexivity|discriminate].
Defined.

(** ** The write path, continued *)

Lemma quiet_extends (w w' : World) : quiet w w' -> extends w w'.
Proof. intros [evs [H _]]. exists evs. exact H. Qed.

Lemma connect_false_quiet (fuel : nat) (c c' : BanConn) (w w' : World) :
  connect fuel false c w = Done (c', w') -> quiet w w'.
Proof. apply reconnect_quiet. Qed.

(** X2. A [Write] that returns an error leaves the connection marked not
    ready, so [IsClosed] holds of it -- whichever of the two socket
    writes failed and however many reconnects came before. *)
Theorem Write_error_marks_not_ready
    (fuel : nat) (c c' : BanConn) (data : bytes) (w w' : World) (err : Error) :
  Write fuel c data w = Done (Some err, c', w') ->
  Ready c' = false /\ IsClosed c' = true.
Proof.
  assert (HI : forall c0, Ready c0 = false -> IsClosed c0 = true).
  { intros c0 H. unfold IsClosed. rewrite H. destruct (Conn c0); reflexivity. }
  revert c w. induction fuel as [|fuel IH]; intros c w; [discriminate|].
  cbn [Write]. intros H.
  apply bind_Done in H as (e1 & w1 & H1 & H).
  destruct e1 as [e|].
  - destruct (_ && _).
    + apply bind_Done in H as (u & w2 & H2 & H).
      apply bind_Done in H as (c2 & w3 & H3 & H).
      eapply IH, H.
    + inversion H; subst. split; [reflexivity|]. apply HI. reflexivity.
  - apply bind_Done in H as (e2 & w2 & H2 & H).
    destruct e2 as [e|]; inversion H; subst.
    split; [reflexivity|]. apply HI. reflexivity.
Qed.

Lemma Write_error_marks_not_ready_witness :
  Ready (set_Ready false clientConn) = false
  /\ IsClosed (set_Ready false clientConn) = true.
Proof.
  apply (Write_error_marks_not_ready 1 clientConn (set_Ready false clientConn) [7]
           {| sockWrites := [None; Some eofErr]; sockReads := []; clock := [];
              dials := []; ranges := []; selects := []; nextChan := O; trace := [] |}
           {| sockWrites := []; sockReads := []; clock := [];
              dials := []; ranges := []; selects := []; nextChan := O;
              trace := [EvSockWrite 1%nat [1; 0; 0; 0]; EvSockWrite 1%nat [7]] |}
           (errs_New ErrNetWriteFail eofErr)).
  reflexivity.
Defined.

(** X3. A [Write] that returns nil has, as its last two socket events,
    sent the length prefix and the whole payload on the socket the
    connection ends up with: after any number of reconnects the frame is
    sent afresh and complete. *)
Theorem Write_success_ends_with_frame
    (fuel : nat) (c c' : BanConn) (data : bytes) (w w' : World) :
  Write fuel c data w = Done (None, c', w') ->
  exists s pre,
    Conn c' = Some s
    /\ trace w'
       = (trace w ++ pre ++ [EvSockWrite s (PutUint32 (uint32 (Z.of_nat (length data))));
                             EvSockWrite s data])%list.
Proof.
  revert c w. induction fuel as [|fuel IH]; intros c w; [discriminate|].
  cbn [Write]. intros H.
  apply bind_Done in H as (e1 & w1 & H1 & H).
  destruct e1 as [e|].
  - destruct (_ && _); [|discriminate].
    apply connWrite_quiet, quiet_extends in H1 as [ev1 E1].
    apply bind_Done in H as (u & w2 & H2 & H).
    apply emit_quiet in H2 as [ev2 [E2 _]]; [|reflexivity].
    apply bind_Done in H as (c2 & w3 & H3 & H).
    apply connect_false_quiet in H3 as [ev3 [E3 _]].
    apply IH in H as (s & pre & HC & HT).
    exists s, (ev1 ++ ev2 ++ ev3 ++ pre)%list. split; [exact HC|].
    rewrite HT, E3, E2, E1, <- !app_assoc. reflexivity.
  - apply bind_Done in H as (e2 & w2 & H2 & H).
    destruct e2 as [e|]; inversion H; subst.
    unfold connWrite in H1, H2. destruct (Conn c') as [s|]; [|discriminate].
    apply sockWrite_Done in H1. apply sockWrite_Done in H2.
    exists s, []. split; [reflexivity|].
    rewrite H2, H1, <- app_assoc. reflexivity.
Qed.

Lemma Write_success_ends_with_frame_witness :
  exists s pre,
    Conn (set_Ready true (set_RefreshMS 1500 (set_Conn (Some 2%nat) clientConn))) = Some s
    /\ [EvSockWrite 1%nat [1; 0; 0; 0];
        EvLog "warn" "write fail, wait 3s and retry";
        EvSockClose 1%nat; EvSleep 3000; EvDial "srv:9001";
        EvSockWrite 2%nat [1; 0; 0; 0]; EvSockWrite 2%nat [7]]
       = (trace redialWorld ++ pre
            ++ [EvSockWrite s (PutUint32 (uint32 (Z.of_nat (length [7]))));
                EvSockWrite s [7]])%list.
Proof.
  apply (Write_success_ends_with_frame 2 clientConn
           (set_Ready true (set_RefreshMS 1500 (set_Conn (Some 2%nat) clientConn))) [7]
           redialWorld
           {| sockWrites := []; sockReads := []; clock := []; dials := [];
              ranges := []; selects := []; nextChan := O;
              trace := [EvSockWrite 1%nat [1; 0; 0; 0];
                        EvLog "warn" "write fail, wait 3s and retry";
                        EvSockClose 1%nat; EvSleep 3000; EvDial "srv:9001";
                        EvSockWrite 2%nat [1; 0; 0; 0]; EvSockWrite 2%nat [7]] |}).
  vm_compute. reflexivity.
Defined.

(** X4. When the write of the length prefix fails and no reconnect is
    due (the connection has no hook, or the error does not classify as
    [ErrNetConnect]), [Write] returns the error under its classified
    code, marks the connection not ready, keeps its socket, and never
    writes the payload. *)
Theorem Write_prefix_failure_without_recovery
    (fuel : nat) (c : BanConn) (data : bytes) (s : sock) (e : GoErr)
    (w : World) (later : list (option GoErr)) :
  Conn c = Some s ->
  sockWrites w = Some e :: later ->
  DoConnect c = None \/ fst (getErrType (Some e)) <> ErrNetConnect ->
  exists w',
    Write (S fuel) c data w
      = Done (Some (errs_New (fst (getErrType (Some e))) e), set_Ready false c, w')
    /\ trace w' = (trace w ++ [EvSockWrite s (PutUint32 (uint32 (Z.of_nat (length data))))])%list
    /\ sockWrites w' = later.
Proof.
  intros HC HW HN. cbn [Write]. unfold connWrite. rewrite HC.
  unfold mbind at 1, M_bind at 1, sockWrite at 1. rewrite HW.
  assert (HB : bool_decide (DoConnect (set_Ready false c) ≠ None)
               && bool_decide (fst (getErrType (Some e)) = ErrNetConnect) = false).
  { destruct HN as [HN|HN].
    - simpl. rewrite HN. rewrite bool_decide_false by (intros H; apply H; reflexivity).
      reflexivity.
    - rewrite (bool_decide_false _ HN). apply andb_false_r. }
  rewrite HB. eexists. split; [reflexivity|]. split; reflexivity.
Qed.

Lemma Write_prefix_failure_without_recovery_witness :
  exists w',
    Write 1 pxSubscriber [7]
      {| sockWrites := [Some eofErr]; sockReads := []; clock := []; dials := [];
         ranges := []; selects := []; nextChan := O; trace := [] |}
      = Done (Some (errs_New (fst (getErrType (Some eofErr))) eofErr),
              set_Ready false pxSubscriber, w')
    /\ trace w' = ([] ++ [EvSockWrite 1%nat (PutUint32 (uint32 (Z.of_nat (length [7]))))])%list
    /\ sockWrites w' = [].
Proof.
  apply (Write_prefix_failure_without_recovery 0 pxSubscriber [7] 1%nat eofErr
           {| sockWrites := [Some eofErr]; sockReads := []; clock := []; dials := [];
              ranges := []; selects := []; nextChan := O; trace := [] |} []);
    [reflexivity|reflexivity|left; reflexivity].
Defined.

(** The dial loop touches nothing but the socket of the connection. *)
Lemma dialLoop_sets_Conn (fuel : nat) (addr : string) (c c' : BanConn) (w w' : World) :
  dialLoop fuel addr c w = Done (c', w') -> exists s, c' = set_Conn (Some s) c.
Proof.
  revert w. induction fuel as [|fuel IH]; intros w; [discriminate|].
  cbn [dialLoop]. intros H.
  apply bind_Done in H as (r & w1 & H1 & H).
  destruct r as [err|s].
  - apply bind_Done in H as (u1 & w2 & H2 & H).
    apply bind_Done in H as (u2 & w3 & H3 & H).
    eapply IH, H.
  - inversion H; subst. eauto.
Qed.

(** X5. The dial loop of the client keeps dialling until a dial
    succeeds: after [n] failed dials, each logged and followed by a sleep
    of ten seconds, and one success it returns the connection with the
    new socket and every other field untouched. *)
Theorem dialLoop_retries_until_success
    (n fuel : nat) (addr : string) (c : BanConn) (s : sock) (w : World)
    (errs : list GoErr) (later : list (GoErr + sock)) :
  length errs = n ->
  (n < fuel)%nat ->
  dials w = (map inl errs ++ inr s :: later)%list ->
  exists w',
    dialLoop fuel addr c w = Done (set_Conn (Some s) c, w')
    /\ trace w' = (trace w ++ failedDials addr n ++ [EvDial addr])%list
    /\ dials w' = later
    /\ sockWrites w' = sockWrites w /\ clock w' = clock w.
Proof.
  revert fuel errs w. induction n as [|n IH]; intros fuel errs w HL HF HD.
  - destruct errs; [|discriminate]. destruct fuel as [|fuel]; [lia|].
    cbn [dialLoop]. unfold mbind, M_bind, netDial. simpl in HD. rewrite HD.
    eexists. split; [reflexivity|]. simpl. auto.
  - destruct errs as [|e errs]; [discriminate|]. destruct fuel as [|fuel]; [lia|].
    cbn [dialLoop]. unfold mbind at 1, M_bind at 1, netDial at 1. simpl in HD. rewrite HD.
    unfold mbind at 1, M_bind at 1, emit at 1.
    unfold mbind at 1, M_bind at 1, emit at 1.
    edestruct (IH fuel errs) as (w' & H1 & H2 & H3 & H4 & H5);
      [injection HL; intros; eassumption|lia| |].
    2: { exists w'. split; [exact H1|]. split; [|split; [exact H3|split; [exact H4|exact H5]]].
         rewrite H2. simpl. rewrite <- !app_assoc. reflexivity. }
    reflexivity.
Qed.

Lemma dialLoop_retries_until_success_witness :
  exists w',
    dialLoop 3 "srv:9001" clientConn
      {| sockWrites := []; sockReads := []; clock := [];
         dials := [inl noErr; inl eofErr; inr 5%nat]; ranges := []; selects := [];
         nextChan := O; trace := [] |}
    = Done (set_Conn (Some 5%nat) clientConn, w')
    /\ trace w' = ([] ++ failedDials "srv:9001" 2 ++ [EvDial "srv:9001"])%list
    /\ dials w' = []
    /\ sockWrites w' = [] /\ clock w' = [].
Proof.
  apply (dialLoop_retries_until_success 2 3 "srv:9001" clientConn 5%nat
           {| sockWrites := []; sockReads := []; clock := [];
              dials := [inl noErr; inl eofErr; inr 5%nat]; ranges := []; selects := [];
              nextChan := O; trace := [] |} [noErr; eofErr] []);
    [reflexivity|lia|reflexivity].
Defined.

Lemma reconnect_result (fuel : nat) (c c' : BanConn) (w w' : World) :
  reconnect fuel c w = Done (c', w') ->
  exists s now,
    c' = set_Ready true (set_RefreshMS now (set_Conn (Some s) (set_Conn None (set_Ready false c)))).
Proof.
  unfold reconnect. intros H.
  apply bind_Done in H as (c1 & w1 & H1 & H).
  assert (E1 : c1 = set_Conn None (set_Ready false c)).
  { destruct (Conn (set_Ready false c)) eqn:HC.
    - apply bind_Done in H1 as (u & w0 & H0 & H1). inversion H1; subst. reflexivity.
    - inversion H1; subst. unfold set_Conn. simpl in *. rewrite <- HC.
      destruct c; reflexivity. }
  apply bind_Done in H as (u & w2 & H2 & H).
  apply bind_Done in H as (c2 & w3 & H3 & H).
  unfold callDoConnect in H3. destruct (DoConnect c1) as [[addr]|]; [|discriminate].
  apply dialLoop_sets_Conn in H3 as [s E3].
  apply bind_Done in H as (now & w4 & H4 & H).
  subst c2. simpl in H.
  apply bind_Done in H as (u5 & w5 & H5 & H). inversion H; subst.
  exists s, now. reflexivity.
Qed.

(** X6. What [connect] can change.  A [connect] that returns has either
    skipped (only possible with [lock] set, on a connection already
    ready) and left the connection as it was, or has left it ready on a
    socket; in both cases the subscriptions, the handler table, the
    remote name and the two hooks are as before. *)
Theorem connect_keeps_subscriptions_and_handlers
    (fuel : nat) (lock : bool) (c c' : BanConn) (w w' : World) :
  connect fuel lock c w = Done (c', w') ->
  Tags c' = Tags c /\ Listens c' = Listens c /\ Remote c' = Remote c
  /\ DoConnect c' = DoConnect c /\ ReInitConn c' = ReInitConn c
  /\ ((c' = c /\ lock = true /\ Ready c = true)
      \/ (Ready c' = true /\ exists s, Conn c' = Some s)).
Proof.
  assert (HR : forall w0 w1, reconnect fuel c w0 = Done (c', w1) ->
    Tags c' = Tags c /\ Listens c' = Listens c /\ Remote c' = Remote c
    /\ DoConnect c' = DoConnect c /\ ReInitConn c' = ReInitConn c
    /\ ((c' = c /\ lock = true /\ Ready c = true)
        \/ (Ready c' = true /\ exists s, Conn c' = Some s))).
  { intros w0 w1 H. apply reconnect_result in H as (s & now & ->). simpl.
    repeat split; try reflexivity. right. split; [reflexivity|]. eauto. }
  unfold connect. destruct lock; [|apply HR].
  intros H.
  apply bind_Done in H as (u & w1 & H1 & H).
  apply bind_Done in H as (fresh & w2 & H2 & H).
  destruct fresh.
  - apply bind_Done in H as (u3 & w3 & H3 & H). inversion H; subst.
    repeat split; try reflexivity. left. repeat split.
    destruct (Ready c'); [reflexivity|]. inversion H2.
  - apply bind_Done in H as (c2 & w3 & H3 & H).
    apply bind_Done in H as (u4 & w4 & H4 & H). inversion H; subst.
    eapply HR, H3.
Qed.

Lemma connect_keeps_subscriptions_and_handlers_witness :
  exists c' w',
    connect 1 false clientConn redialWorld = Done (c', w')
    /\ Tags c' = Tags clientConn /\ Listens c' = Listens clientConn
    /\ Remote c' = Remote clientConn
    /\ DoConnect c' = DoConnect clientConn /\ ReInitConn c' = ReInitConn clientConn
    /\ ((c' = clientConn /\ false = true /\ Ready clientConn = true)
        \/ (Ready c' = true /\ exists s, Conn c' = Some s)).
Proof.
  eexists _, _. split; [vm_compute; reflexivity|].
  eapply (connect_keeps_subscriptions_and_handlers 1 false clientConn _ redialWorld).
  vm_compute. reflexivity.
Defined.

(** X7. [connect(true)] holds the mutex for all it does: a call that
    returns has taken the mutex first and released it last, and nothing
    in between touches the mutex. *)
Theorem connect_lock_is_balanced
    (fuel : nat) (c c' : BanConn) (w w' : World) :
  connect fuel true c w = Done (c', w') ->
  exists evs,
    trace w' = (trace w ++ EvLock :: evs ++ [EvUnlock])%list
    /\ forallb (fun e => negb (isMutexEvent e)) evs = true.
Proof.
  unfold connect. intros H.
  apply bind_Done in H as (u & w1 & H1 & H). inversion H1; subst; clear H1.
  apply bind_Done in H as (fresh & w2 & H2 & H).
  assert (E2 : trace w2 = (trace w ++ [EvLock])%list).
  { destruct (Ready c).
    - apply bind_Done in H2 as (now & w0 & H0 & H2). inversion H2; subst.
      unfold TimeMS in H0. simpl in H0. destruct (clock w); [discriminate|].
      inversion H0; subst. reflexivity.
    - inversion H2; subst. reflexivity. }
  destruct fresh.
  - apply bind_Done in H as (u3 & w3 & H3 & H). inversion H; subst.
    inversion H3; subst. exists []. simpl. rewrite E2, <- app_assoc.
    split; reflexivity.
  - apply bind_Done in H as (c2 & w3 & H3 & H).
    apply bind_Done in H as (u4 & w4 & H4 & H). inversion H; subst.
    inversion H4; subst. apply reconnect_quiet in H3 as [evs [E3 F3]].
    exists evs. simpl. rewrite E3, E2, <- !app_assoc. split; [reflexivity|exact F3].
Qed.

Lemma connect_lock_is_balanced_witness :
  exists evs,
    [EvLock; EvSockClose 1%nat; EvSleep 3000; EvDial "srv:9001"; EvUnlock]
    = ([] ++ EvLock :: evs ++ [EvUnlock])%list
    /\ forallb (fun e => negb (isMutexEvent e)) evs = true.
Proof.
  apply (connect_lock_is_balanced 1 (set_Ready false clientConn)
           (set_Ready true (set_RefreshMS 1500 (set_Conn (Some 2%nat) clientConn)))
           {| sockWrites := []; sockReads := []; clock := [1500]; dials := [inr 2%nat];
              ranges := []; selects := []; nextChan := O; trace := [] |}
           {| sockWrites := []; sockReads := []; clock := []; dials := [];
              ranges := []; selects := []; nextChan := O;
              trace := [EvLock; EvSockClose 1%nat; EvSleep 3000; EvDial "srv:9001";
                        EvUnlock] |}).
  vm_compute. reflexivity.
Defined.

Lemma Write_unfold (fuel : nat) (c : BanConn) (data : bytes) (w : World) :
  Write (S fuel) c data w
  = (err_ ← connWrite c (PutUint32 (uint32 (Z.of_nat (length data))));
     match err_ with
     | Some e =>
       if bool_decide (DoConnect (set_Ready false c) ≠ None)
          && bool_decide (fst (getErrType (Some e)) = ErrNetConnect)
       then
         emit (EvLog "warn" "write fail, wait 3s and retry");;
         c ← connect fuel false (set_Ready false c);
         Write fuel c data
       else mret (Some (errs_New (fst (getErrType (Some e))) e), set_Ready false c)
     | None =>
       err_ ← connWrite c data;
       match err_ with
       | Some e => mret (Some (errs_New ErrNetWriteFail e), set_Ready false c)
       | None => mret (None, c)
       end
     end) w.
Proof. reflexivity. Qed.

(** X8. Recovery on the write path: when the write of the length prefix
    fails with an error that classifies as [ErrNetConnect] on a connection
    with the client's hook, [Write] closes and drops the socket, sleeps
    three seconds, dials, stamps [RefreshMS] with the time after the dial,
    runs the reinit hook if there is one, marks the connection ready, and
    starts over on the new socket with the whole frame still to send. *)
Theorem Write_recovers_and_retries
    (fuel : nat) (c : BanConn) (data : bytes) (s s2 : sock) (e : GoErr)
    (addr : string) (now : Z) (w : World)
    (laterW : list (option GoErr)) (laterD : list (GoErr + sock)) (laterC : list Z) :
  Conn c = Some s ->
  DoConnect c = Some (DialLoop addr) ->
  fst (getErrType (Some e)) = ErrNetConnect ->
  sockWrites w = Some e :: laterW ->
  dials w = inr s2 :: laterD ->
  clock w = now :: laterC ->
  Write (S (S fuel)) c data w
  = Write (S fuel)
      (set_Ready true (set_RefreshMS now (set_Conn (Some s2) (set_Ready false c)))) data
      {| sockWrites := laterW; sockReads := sockReads w; clock := laterC;
         dials := laterD; ranges := ranges w; selects := selects w;
         nextChan := nextChan w;
         trace := (trace w
                   ++ [EvSockWrite s (PutUint32 (uint32 (Z.of_nat (length data))));
                       EvLog "warn" "write fail, wait 3s and retry";
                       EvSockClose s; EvSleep 3000; EvDial addr]
                   ++ reinitEvents c)%list |}.
Proof.
  intros HC HD HE HW HDl HCl.
  rewrite (Write_unfold (S fuel)).
  assert (H1 : connWrite c (PutUint32 (uint32 (Z.of_nat (length data)))) w
               = Done (Some e,
                       {| sockWrites := laterW; sockReads := sockReads w; clock := clock w;
                          dials := dials w; ranges := ranges w; selects := selects w;
                          nextChan := nextChan w;
                          trace := (trace w ++ [EvSockWrite s (PutUint32 (uint32 (Z.of_nat (length data))))])%list |})).
  { unfold connWrite, sockWrite. rewrite HC, HW. reflexivity. }
  unfold mbind at 1, M_bind at 1. rewrite H1.
  rewrite HE. change (DoConnect (set_Ready false c)) with (DoConnect c). rewrite HD.
  rewrite !bool_decide_true by (discriminate || reflexivity). cbn [andb].
  unfold mbind at 1, M_bind at 1, emit at 1.
  unfold mbind at 1, M_bind at 1.
  assert (HR : forall w0, dials w0 = inr s2 :: laterD -> clock w0 = now :: laterC ->
    connect (S fuel) false (set_Ready false c) w0
    = Done (set_Ready true (set_RefreshMS now (set_Conn (Some s2) (set_Ready false c))),
            {| sockWrites := sockWrites w0; sockReads := sockReads w0; clock := laterC;
               dials := laterD; ranges := ranges w0; selects := selects w0;
               nextChan := nextChan w0;
               trace := (trace w0 ++ [EvSockClose s; EvSleep 3000; EvDial addr]
                         ++ reinitEvents c)%list |})).
  { intros w0 G1 G2. unfold connect, reconnect.
    change (Conn (set_Ready false (set_Ready false c))) with (Conn c). rewrite HC.
    unfold callDoConnect. cbn [dialLoop].
    unfold mbind, M_bind, emit, netDial, TimeMS, mret, M_ret. simpl.
    rewrite HD. simpl. rewrite G1. simpl. rewrite G2. unfold reinitEvents.
    destruct (ReInitConn c); simpl; rewrite <- !app_assoc; reflexivity. }
  rewrite HR by (simpl; assumption). simpl.
  rewrite <- !app_assoc. reflexivity.
Qed.

Lemma Write_recovers_and_retries_witness :
  Write 2 clientConn [7] redialWorld
  = Write 1 (set_Ready true (set_RefreshMS 1500 (set_Conn (Some 2%nat) (set_Ready false clientConn))))
      [7]
      {| sockWrites := [None; None]; sockReads := []; clock := []; dials := [];
         ranges := []; selects := []; nextChan := O;
         trace := ([] ++ [EvSockWrite 1%nat (PutUint32 (uint32 (Z.of_nat (length [7]))));
                          EvLog "warn" "write fail, wait 3s and retry";
                          EvSockClose 1%nat; EvSleep 3000; EvDial "srv:9001"]
                   ++ reinitEvents clientConn)%list |}.
Proof.
  apply (Write_recovers_and_retries 0 clientConn [7] 1%nat 2%nat eofErr "srv:9001" 1500
           redialWorld [None; None] [] []); reflexivity.
Defined.

(** ** The read path, continued *)

(** X9. Payload-read failure: when the length prefix is read and the
    read of the payload fails, [Read] returns an error of kind
    [ErrNetReadFail] and attempts no reconnect, whatever the hook and the
    class of the error; unlike [Write] it leaves the connection exactly
    as it was, readiness flag included. *)
Theorem Read_payload_failure_leaves_connection
    (fuel : nat) (c : BanConn) (s : sock) (hdr got : bytes) (e : GoErr)
    (w : World) (later : list (bytes * option GoErr)) :
  Conn c = Some s ->
  sockReads w = (hdr, None) :: (got, Some e) :: later ->
  exists w',
    Read (S fuel) c w = Done (inl (errs_New ErrNetReadFail e), c, w')
    /\ trace w' = (trace w ++ [EvSockRead s 4;
                               EvSockRead s (Uint32 (firstn 4 (hdr ++ [0; 0; 0; 0])))])%list
    /\ sockReads w' = later /\ dials w' = dials w /\ clock w' = clock w.
Proof.
  intros HC HR. cbn [Read]. unfold connRead. rewrite HC.
  unfold mbind at 1, M_bind at 1, sockRead at 1. rewrite HR.
  unfold mbind at 1, M_bind at 1, sockRead at 1. simpl.
  eexists. split; [reflexivity|]. simpl. rewrite <- app_assoc. auto.
Qed.

Lemma Read_payload_failure_leaves_connection_witness :
  exists w',
    Read 1 clientConn
      {| sockWrites := []; sockReads := [([2; 0; 0; 0], None); ([5], Some eofErr)];
         clock := []; dials := []; ranges := []; selects := []; nextChan := O;
         trace := [] |}
    = Done (inl (errs_New ErrNetReadFail eofErr), clientConn, w')
    /\ trace w' = ([] ++ [EvSockRead 1%nat 4;
                          EvSockRead 1%nat (Uint32 (firstn 4 ([2; 0; 0; 0] ++ [0; 0; 0; 0])))])%list
    /\ sockReads w' = [] /\ dials w' = [] /\ clock w' = [].
Proof.
  apply (Read_payload_failure_leaves_connection 0 clientConn 1%nat [2; 0; 0; 0] [5] eofErr
           {| sockWrites := []; sockReads := [([2; 0; 0; 0], None); ([5], Some eofErr)];
              clock := []; dials := []; ranges := []; selects := []; nextChan := O;
              trace := [] |} []); reflexivity.
Defined.

(** X10. When the read of the length prefix fails and no reconnect is
    due (no hook, or the error does not classify as [ErrNetConnect]),
    [Read] returns the error under its classified code after that one
    socket read, and the connection stays as it was: a failed read never
    marks the connection not ready. *)
Theorem Read_prefix_failure_without_recovery
    (fuel : nat) (c : BanConn) (s : sock) (got : bytes) (e : GoErr)
    (w : World) (later : list (bytes * option GoErr)) :
  Conn c = Some s ->
  sockReads w = (got, Some e) :: later ->
  DoConnect c = None \/ fst (getErrType (Some e)) <> ErrNetConnect ->
  exists w',
    Read (S fuel) c w = Done (inl (errs_New (fst (getErrType (Some e))) e), c, w')
    /\ trace w' = (trace w ++ [EvSockRead s 4])%list
    /\ sockReads w' = later.
Proof.
  intros HC HR HN. cbn [Read]. unfold connRead. rewrite HC.
  unfold mbind at 1, M_bind at 1, sockRead at 1. rewrite HR.
  assert (HB : bool_decide (DoConnect c ≠ None)
               && bool_decide (fst (getErrType (Some e)) = ErrNetConnect) = false).
  { destruct HN as [HN|HN].
    - rewrite HN. rewrite bool_decide_false by (intros H; apply H; reflexivity).
      reflexivity.
    - rewrite (bool_decide_false _ HN). apply andb_false_r. }
  rewrite HB. eexists. split; [reflexivity|]. split; reflexivity.
Qed.

Lemma Read_prefix_failure_without_recovery_witness :
  fst (getErrType (Some resetOpErr)) = ErrNetUnknown
  /\ exists w',
       Read 1 clientConn
         {| sockWrites := []; sockReads := [([], Some resetOpErr)];
            clock := []; dials := []; ranges := []; selects := []; nextChan := O;
            trace := [] |}
       = Done (inl (errs_New (fst (getErrType (Some resetOpErr))) resetOpErr), clientConn, w')
       /\ trace w' = ([] ++ [EvSockRead 1%nat 4])%list
       /\ sockReads w' = [].
Proof.
  split; [reflexivity|].
  apply (Read_prefix_failure_without_recovery 0 clientConn 1%nat [] resetOpErr
           {| sockWrites := []; sockReads := [([], Some resetOpErr)];
              clock := []; dials := []; ranges := []; selects := []; nextChan := O;
              trace := [] |} []);
    [reflexivity|reflexivity|right; discriminate].
Defined.

(** ** Frames on the wire *)

(** X11. Framing round trip: when both socket writes succeed, [Write]
    returns nil, leaves the connection as it was, and has put on the
    socket a 4-byte prefix and then the payload; and for a payload
    shorter than 2^32 bytes, a [Read] whose two socket reads deliver
    that prefix and that payload returns the payload. *)
Theorem Write_then_Read_roundtrip
    (fuel : nat) (c : BanConn) (s : sock) (data : bytes) (w : World)
    (laterW : list (option GoErr)) :
  Conn c = Some s ->
  Z.of_nat (length data) < 2 ^ 32 ->
  sockWrites w = None :: None :: laterW ->
  exists hdr w1,
    Write (S fuel) c data w = Done (None, c, w1)
    /\ trace w1 = (trace w ++ [EvSockWrite s hdr; EvSockWrite s data])%list
    /\ length hdr = 4%nat
    /\ forall (fuel2 : nat) (c2 : BanConn) (s2 : sock) (w2 : World)
              (laterR : list (bytes * option GoErr)),
         Conn c2 = Some s2 ->
         sockReads w2 = (hdr, None) :: (data, None) :: laterR ->
         exists w3,
           Read (S fuel2) c2 w2 = Done (inr data, c2, w3) /\ sockReads w3 = laterR.
Proof.
  intros HC HL HW.
  exists (PutUint32 (uint32 (Z.of_nat (length data)))). eexists.
  split.
  { cbn [Write]. unfold connWrite. rewrite HC.
    unfold mbind, M_bind, sockWrite. rewrite HW. simpl. reflexivity. }
  split; [simpl; rewrite <- app_assoc; reflexivity|].
  split; [reflexivity|].
  intros fuel2 c2 s2 w2 laterR HC2 HR.
  destruct (Read_of_written_frame fuel2 c2 s2 data w2 laterR HC2 HL HR)
    as (w3 & H1 & H2 & _).
  exists w3. split; assumption.
Qed.

Lemma Write_then_Read_roundtrip_witness :
  exists hdr w1,
    Write 1 clientConn [7; 8] pxWorld = Done (None, clientConn, w1)
    /\ trace w1 = (trace pxWorld ++ [EvSockWrite 1%nat hdr; EvSockWrite 1%nat [7; 8]])%list
    /\ length hdr = 4%nat
    /\ forall (fuel2 : nat) (c2 : BanConn) (s2 : sock) (w2 : World)
              (laterR : list (bytes * option GoErr)),
         Conn c2 = Some s2 ->
         sockReads w2 = (hdr, None) :: ([7; 8], None) :: laterR ->
         exists w3,
           Read (S fuel2) c2 w2 = Done (inr [7; 8], c2, w3) /\ sockReads w3 = laterR.
Proof.
  apply (Write_then_Read_roundtrip 0 clientConn 1%nat [7; 8] pxWorld []);
    [reflexivity|simpl; lia|reflexivity].
Defined.

Lemma decode_of_encode (L : CodecLib) (HL : CodecLaws L) (msg : IOMsg) (frame : bytes) :
  encode msg = inr frame -> decode frame = inr msg.
Proof.
  unfold encode, decode, compress, deCompress.
  destruct (Marshal msg) as [e|raw] eqn:HM; [discriminate|].
  destruct (zlibDeflate raw) as [e|z] eqn:HZ; [discriminate|].
  intros H. injection H as <-.
  rewrite (Inflate_Deflate _ _ HZ), (Unmarshal_Marshal _ _ HM). reflexivity.
Qed.

Lemma WriteMsg_encoded (L : CodecLib) (fuel : nat) (c : BanConn) (msg : IOMsg)
    (frame : bytes) (w : World) :
  encode msg = inr frame ->
  WriteMsg fuel c msg w = (emit EvLock;; r ← Write fuel c frame; emit EvUnlock;; mret r) w.
Proof.
  unfold encode, WriteMsg. destruct (Marshal msg) as [e|raw]; [discriminate|].
  intros H. rewrite H. reflexivity.
Qed.

(** X12. Message round trip over the wire: an envelope that encodes to a
    frame shorter than 2^32 bytes is sent by [WriteMsg] under the mutex
    as a prefix and the frame; and a [ReadMsg] whose two socket reads
    deliver that prefix and that frame returns the envelope (the JSON and
    zlib libraries being inverse as [CodecLaws] says). *)
Theorem WriteMsg_then_ReadMsg_roundtrip (L : CodecLib) (HL : CodecLaws L)
    (fuel : nat) (c : BanConn) (s : sock) (msg : IOMsg) (frame : bytes) (w : World)
    (laterW : list (option GoErr)) :
  encode msg = inr frame ->
  Z.of_nat (length frame) < 2 ^ 32 ->
  Conn c = Some s ->
  sockWrites w = None :: None :: laterW ->
  exists hdr w1,
    WriteMsg (S fuel) c msg w = Done (None, c, w1)
    /\ trace w1
       = (trace w ++ [EvLock; EvSockWrite s hdr; EvSockWrite s frame; EvUnlock])%list
    /\ forall (fuel2 : nat) (c2 : BanConn) (s2 : sock) (w2 : World)
              (laterR : list (bytes * option GoErr)),
         Conn c2 = Some s2 ->
         sockReads w2 = (hdr, None) :: (frame, None) :: laterR ->
         exists w3, ReadMsg (S fuel2) c2 w2 = Done (inr msg, c2, w3).
Proof.
  intros HE HL' HC HW.
  exists (PutUint32 (uint32 (Z.of_nat (length frame)))). eexists.
  split.
  { rewrite (WriteMsg_encoded L _ c msg frame w HE).
    cbn [Write]. unfold connWrite. rewrite HC.
    unfold mbind, M_bind, sockWrite, emit. simpl. rewrite HW. simpl. reflexivity. }
  split; [simpl; rewrite <- !app_assoc; reflexivity|].
  intros fuel2 c2 s2 w2 laterR HC2 HR.
  destruct (Read_of_written_frame fuel2 c2 s2 frame w2 laterR HC2 HL' HR)
    as (w3 & H1 & _).
  exists w3. unfold ReadMsg, mbind, M_bind. rewrite H1.
  rewrite (decode_of_encode L HL msg frame HE). reflexivity.
Qed.

Lemma WriteMsg_then_ReadMsg_roundtrip_witness :
  exists hdr w1,
    @WriteMsg Loopback 1 clientConn kvRequest pxWorld = Done (None, clientConn, w1)
    /\ trace w1
       = (trace pxWorld
          ++ [EvLock; EvSockWrite 1%nat hdr;
              EvSockWrite 1%nat (120 :: 156 :: 1 :: 8 :: codes "onGetVal" ++ codes "k");
              EvUnlock])%list
    /\ forall (fuel2 : nat) (c2 : BanConn) (s2 : sock) (w2 : World)
              (laterR : list (bytes * option GoErr)),
         Conn c2 = Some s2 ->
         sockReads w2
           = (hdr, None)
               :: (120 :: 156 :: 1 :: 8 :: codes "onGetVal" ++ codes "k", None) :: laterR ->
         exists w3, @ReadMsg Loopback (S fuel2) c2 w2 = Done (inr kvRequest, c2, w3).
Proof.
  apply (WriteMsg_then_ReadMsg_roundtrip Loopback Loopback_laws 0 clientConn 1%nat
           kvRequest (120 :: 156 :: 1 :: 8 :: codes "onGetVal" ++ codes "k") pxWorld []);
    [reflexivity|simpl; lia|reflexivity|reflexivity].
Defined.

(** X13. An envelope that does not encode is not sent: [WriteMsg]
    returns the marshal or compress error without taking the mutex and
    without a socket write, and the connection and the world are as
    before. *)
Theorem WriteMsg_codec_failure_sends_nothing (L : CodecLib)
    (fuel : nat) (c : BanConn) (msg : IOMsg) (err : Error) (w : World) :
  encode msg = inl err ->
  WriteMsg fuel c msg w = Done (Some err, c, w)
  /\ (Code err = ErrMarshalFail \/ Code err = ErrCompressFail).
Proof.
  unfold encode, WriteMsg, compress.
  destruct (Marshal msg) as [e|raw].
  { intros H. injection H as <-. split; [reflexivity|left; reflexivity]. }
  destruct (zlibDeflate raw) as [e|z]; [|discriminate].
  intros H. injection H as <-. split; [reflexivity|right; reflexivity].
Qed.

Lemma WriteMsg_codec_failure_sends_nothing_witness :
  @WriteMsg Loopback 1 clientConn {| Action := "px"; Data := VNil |} pxWorld
  = Done (Some (errs_New ErrMarshalFail noErr), clientConn, pxWorld)
  /\ (Code (errs_New ErrMarshalFail noErr) = ErrMarshalFail
      \/ Code (errs_New ErrMarshalFail noErr) = ErrCompressFail).
Proof.
  apply (WriteMsg_codec_failure_sends_nothing Loopback 1 clientConn
           {| Action := "px"; Data := VNil |} (errs_New ErrMarshalFail noErr) pxWorld).
  reflexivity.
Defined.

Lemma WriteMsg_writes_under_lock_witness :
  exists w',
    @WriteMsg Loopback 2 clientConn kvRequest redialWorld
    = Done (None, set_Ready true (set_RefreshMS 1500 (set_Conn (Some 2%nat) clientConn)), w')
    /\ writesUnderLock false (trace w') = true.
Proof.
  eexists. split; [vm_compute; reflexivity|].
  apply (WriteMsg_writes_under_lock Loopback 2 clientConn kvRequest redialWorld _
           (None, set_Ready true (set_RefreshMS 1500 (set_Conn (Some 2%nat) clientConn)))).
  - reflexivity.
  - vm_compute. reflexivity.
Defined.

(** X15. [Broadcast] marshals only when there is someone to send to: for
    an envelope that does not encode it returns the codec error if some
    open connection of the roster holds the tag, and nil if none does;
    it starts no send, and compacts the roster all the same. *)
Theorem Broadcast_codec_failure (L : CodecLib)
    (s : Server.ServerIO) (msg : IOMsg) (err : Error) :
  encode msg = inl err ->
  Server.Broadcast s msg
  = (match List.filter (isTarget (Action msg)) (Server.Conns s) with
     | [] => None
     | _ :: _ => Some err
     end,
     Server.set_Conns (List.filter isOpen (Server.Conns s)) s, []).
Proof.
  intros HE. unfold Server.Broadcast. rewrite scanConns_filter.
  destruct (List.filter (isTarget (Action msg)) (Server.Conns s)); [reflexivity|].
  unfold encode in HE. destruct (Marshal msg) as [e|raw].
  { injection HE as <-. reflexivity. }
  rewrite HE. reflexivity.
Qed.

Lemma Broadcast_codec_failure_witness :
  @Server.Broadcast Loopback pxServer {| Action := "px"; Data := VNil |}
  = (Some (errs_New ErrMarshalFail noErr),
     Server.set_Conns [pxSubscriber; pxBystander] pxServer, [])
  /\ @Server.Broadcast Loopback pxServer {| Action := "none"; Data := VNil |}
     = (None, Server.set_Conns [pxSubscriber; pxBystander] pxServer, []).
Proof.
  split.
  - apply (Broadcast_codec_failure Loopback pxServer {| Action := "px"; Data := VNil |}
             (errs_New ErrMarshalFail noErr)). reflexivity.
  - apply (Broadcast_codec_failure Loopback pxServer {| Action := "none"; Data := VNil |}
             (errs_New ErrMarshalFail noErr)). reflexivity.
Defined.

(** ** Subscriptions *)

Lemma HasTag_mget (c : BanConn) (t : string) :
  HasTag c t = true <-> is_Some (mget (Tags c) t).
Proof.
  unfold HasTag. destruct (mget (Tags c) t); split; intros H;
    try reflexivity; try discriminate; eauto.
  destruct H; discriminate.
Qed.

Lemma subscribeTags_allocated (tags : list string) (g : gmap string bool) :
  exists g',
    subscribeTags tags (Some g) = Some (Some g')
    /\ forall t, is_Some (g' !! t) <-> In t tags \/ is_Some (g !! t).
Proof.
  revert g. induction tags as [|tag tags IH]; intros g; simpl.
  - exists g. split; [reflexivity|]. intros t. tauto.
  - destruct (IH (<[tag := true]> g)) as (g' & H1 & H2).
    exists g'. split; [exact H1|]. intros t. rewrite H2, lookup_insert_is_Some.
    destruct (decide (tag = t)); tauto.
Qed.

Lemma mget_unsubscribe (tags : list string) (m : option (gmap string bool)) (t : string) :
  is_Some (mget (fold_left (fun m tag => mdel tag m) tags m) t)
  <-> is_Some (mget m t) /\ ~ In t tags.
Proof.
  revert m. induction tags as [|tag tags IH]; intros m; simpl.
  - tauto.
  - rewrite IH. destruct m as [g|]; simpl.
    + destruct (decide (tag = t)) as [->|Hne].
      * rewrite lookup_delete_eq. split; [intros [[x Hx] _]; discriminate|tauto].
      * rewrite lookup_delete_ne by exact Hne. tauto.
    + split; [intros [[x Hx] _]; discriminate|intros [[x Hx] _]; discriminate].
Qed.

(** X16. [Subscribe] on a connection whose tag map is allocated returns
    without touching the world, and afterwards the connection holds a
    tag exactly if it is one of the given tags or was held before; the
    socket and the readiness flag are as before. *)
Theorem Subscribe_adds_tags
    (c : BanConn) (tags : list string) (g : gmap string bool) (w : World) :
  Tags c = Some g ->
  exists c',
    Subscribe c tags w = Done (c', w)
    /\ (forall t, HasTag c' t = true <-> In t tags \/ HasTag c t = true)
    /\ Conn c' = Conn c /\ Ready c' = Ready c /\ Listens c' = Listens c.
Proof.
  intros HT. destruct (subscribeTags_allocated tags g) as (g' & H1 & H2).
  exists (set_Tags (Some g') c). unfold Subscribe. rewrite HT, H1.
  split; [reflexivity|]. split; [|auto].
  intros t. rewrite !HasTag_mget. simpl. rewrite HT. simpl. apply H2.
Qed.

Lemma Subscribe_adds_tags_witness :
  exists c',
    Subscribe pxBystander ["px"; "depth"] idle = Done (c', idle)
    /\ (forall t, HasTag c' t = true <-> In t ["px"; "depth"] \/ HasTag pxBystander t = true)
    /\ Conn c' = Conn pxBystander /\ Ready c' = Ready pxBystander
    /\ Listens c' = Listens pxBystander.
Proof.
  apply (Subscribe_adds_tags pxBystander ["px"; "depth"] ∅ idle). reflexivity.
Defined.

(** X17. [UnSubscribe] never fails, and afterwards the connection holds
    a tag exactly if it held it before and the tag is not among those
    given; on a connection without tag map it changes nothing. *)
Theorem UnSubscribe_removes_tags (c : BanConn) (tags : list string) (t : string) :
  (HasTag (UnSubscribe c tags) t = true <-> HasTag c t = true /\ ~ In t tags)
  /\ (Tags c = None -> UnSubscribe c tags = c).
Proof.
  split.
  - rewrite !HasTag_mget. unfold UnSubscribe. simpl. apply mget_unsubscribe.
  - intros HN. unfold UnSubscribe. rewrite HN.
    assert (HF : fold_left (fun (m : option (gmap string bool)) tag => mdel tag m) tags None
                 = None).
    { induction tags as [|tag tags IH]; simpl; [reflexivity|exact IH]. }
    rewrite HF. unfold set_Tags. rewrite <- HN. destruct c; reflexivity.
Qed.

(** X18. Subscription tags match whole actions, not prefixes: a
    connection that holds no tag equal to the action is sent nothing by
    [Broadcast], even when it holds a tag of which the action is an
    extension (a subscriber to "px" gets no "px_BTC"). *)
Theorem Broadcast_matches_whole_tag (L : CodecLib)
    (s : Server.ServerIO) (msg : IOMsg) (c : BanConn) (b : bytes) :
  mget (Tags c) (Action msg) = None ->
  ~ In (c, b) (snd (Server.Broadcast s msg)).
Proof.
  intros HN HI.
  apply (Broadcast_any L s msg) in HI as [HI _].
  apply filter_In in HI as [_ HI]. unfold isTarget in HI.
  apply andb_prop in HI as [_ HI]. unfold HasTag in HI. rewrite HN in HI.
  discriminate.
Qed.

Lemma Broadcast_matches_whole_tag_witness :
  HasPrefix "px_BTC" "px" = true
  /\ HasTag pxSubscriber "px" = true
  /\ IsClosed pxSubscriber = false
  /\ forall b,
       ~ In (pxSubscriber, b)
            (snd (@Server.Broadcast Loopback pxServer {| Action := "px_BTC"; Data := VInt 100 |})).
Proof.
  split; [reflexivity|]. split; [reflexivity|]. split; [reflexivity|].
  intros b.
  apply (Broadcast_matches_whole_tag Loopback pxServer
           {| Action := "px_BTC"; Data := VInt 100 |} pxSubscriber b).
  reflexivity.
Defined.

(** X19. Subscribing and broadcasting compose: once an open connection
    has subscribed to a tag, a [Broadcast] of an envelope with that
    action that encodes to [frame], on a roster that holds the
    connection, sends it [frame]; once it has unsubscribed from the tag
    again, the same [Broadcast] sends it nothing. *)
Theorem Subscribe_then_Broadcast (L : CodecLib)
    (c c' : BanConn) (tag : string) (data : Value) (frame : bytes)
    (w w' : World) (s1 s2 : Server.ServerIO) :
  Subscribe c [tag] w = Done (c', w') ->
  IsClosed c = false ->
  encode {| Action := tag; Data := data |} = inr frame ->
  In c' (Server.Conns s1) ->
  In (UnSubscribe c' [tag]) (Server.Conns s2) ->
  In (c', frame) (snd (Server.Broadcast s1 {| Action := tag; Data := data |}))
  /\ forall b,
       ~ In (UnSubscribe c' [tag], b)
            (snd (Server.Broadcast s2 {| Action := tag; Data := data |})).
Proof.
  intros HS HC HE H1 H2.
  unfold Subscribe in HS.
  destruct (Tags c) as [g|] eqn:HT; [|discriminate].
  destruct (subscribeTags_allocated [tag] g) as (g' & G1 & G2).
  rewrite G1 in HS. injection HS as <- <-.
  split.
  - rewrite (Broadcast_encoded L s1 _ frame HE). simpl.
    apply in_map_iff. exists (set_Tags (Some g') c). split; [reflexivity|].
    apply filter_In. split; [exact H1|]. unfold isTarget.
    change (IsClosed (set_Tags (Some g') c)) with (IsClosed c). rewrite HC. simpl.
    apply HasTag_mget. simpl. apply G2. left. left. reflexivity.
  - intros b HI.
    apply (Broadcast_any L s2 _) in HI as [HI _].
    apply filter_In in HI as [_ HI]. unfold isTarget in HI.
    apply andb_prop in HI as [_ HI]. simpl in HI.
    apply HasTag_mget in HI. unfold UnSubscribe in HI. simpl in HI.
    rewrite lookup_delete_eq in HI. destruct HI; discriminate.
Qed.

Lemma Subscribe_then_Broadcast_witness :
  exists frame,
    @encode Loopback pxMsg = inr frame
    /\ In (pxSubscriber, frame) (snd (@Server.Broadcast Loopback pxServer pxMsg))
    /\ forall b,
         ~ In (UnSubscribe pxSubscriber ["px"], b)
              (snd (@Server.Broadcast Loopback
                      (Server.set_Conns [UnSubscribe pxSubscriber ["px"]] pxServer) pxMsg)).
Proof.
  eexists. split; [reflexivity|].
  apply (Subscribe_then_Broadcast Loopback (serverConn 1%nat "a:1" ∅ true) pxSubscriber
           "px" (VInt 100) _
           idle idle pxServer (Server.set_Conns [UnSubscribe pxSubscriber ["px"]] pxServer)).
  - unfold pxSubscriber, serverConn, Subscribe. simpl.
    rewrite insert_empty. reflexivity.
  - reflexivity.
  - reflexivity.
  - left. reflexivity.
  - left. reflexivity.
Defined.

(** ** Handler dispatch, continued *)

Lemma scanListens_In (order : list (string * ConnCB)) (action prefix : string)
    (handle : ConnCB) :
  scanListens order action = Some (prefix, handle) ->
  In (prefix, handle) order /\ HasPrefix action prefix = true.
Proof.
  intros H. apply scanListens_Some in H as (H1 & before & after & H2 & _).
  split; [|exact H1]. rewrite H2. apply in_or_app. right. left. reflexivity.
Qed.

Lemma scanListens_order_irrelevant_aux
    (order1 order2 : list (string * ConnCB)) (action : string) :
  order1 ≡ₚ order2 ->
  (forall p1 h1 p2 h2,
     In (p1, h1) order1 -> In (p2, h2) order1 ->
     HasPrefix action p1 = true -> HasPrefix action p2 = true ->
     p1 = p2 /\ h1 = h2) ->
  scanListens order1 action = scanListens order2 action.
Proof.
  intros HP HU.
  assert (HIn : forall x, In x order1 <-> In x order2).
  { intros x. rewrite <- !list_elem_of_In, HP. reflexivity. }
  destruct (scanListens order1 action) as [[p1 h1]|] eqn:H1;
    destruct (scanListens order2 action) as [[p2 h2]|] eqn:H2; try reflexivity.
  - apply scanListens_In in H1 as [I1 M1]. apply scanListens_In in H2 as [I2 M2].
    apply HIn in I2. destruct (HU p1 h1 p2 h2 I1 I2 M1 M2) as [-> ->]. reflexivity.
  - apply scanListens_In in H1 as [I1 M1]. apply HIn in I1.
    rewrite (scanListens_None _ _ H2 p1 h1 I1) in M1. discriminate.
  - apply scanListens_In in H2 as [I2 M2]. apply HIn in I2.
    rewrite (scanListens_None _ _ H1 p2 h2 I2) in M2. discriminate.
Qed.

(** X20. The range order matters only when prefixes overlap: if at most
    one entry of the handler table has a prefix of the action, then
    whatever the order in which the range visits the table, the message
    is dispatched the same way (to the same handler, or logged). *)
Theorem dispatch_order_irrelevant
    (order1 order2 : list (string * ConnCB)) (msg : IOMsg) (w : World) :
  order1 ≡ₚ order2 ->
  (forall p1 h1 p2 h2,
     In (p1, h1) order1 -> In (p2, h2) order1 ->
     HasPrefix (Action msg) p1 = true -> HasPrefix (Action msg) p2 = true ->
     p1 = p2 /\ h1 = h2) ->
  dispatch order1 msg w = dispatch order2 msg w.
Proof.
  intros HP HU. unfold dispatch.
  rewrite (scanListens_order_irrelevant_aux order1 order2 (Action msg) HP HU).
  reflexivity.
Qed.

Lemma dispatch_order_irrelevant_witness :
  dispatch [("subscribe", CbSubscribe); ("unsubscribe", CbUnSubscribe)]
    {| Action := "subscribe"; Data := VStrs ["px"] |} idle
  = dispatch [("unsubscribe", CbUnSubscribe); ("subscribe", CbSubscribe)]
      {| Action := "subscribe"; Data := VStrs ["px"] |} idle.
Proof.
  apply (dispatch_order_irrelevant
           [("subscribe", CbSubscribe); ("unsubscribe", CbUnSubscribe)]
           [("unsubscribe", CbUnSubscribe); ("subscribe", CbSubscribe)]
           {| Action := "subscribe"; Data := VStrs ["px"] |} idle).
  - apply perm_swap.
  - intros p1 h1 p2 h2 [I1|[I1|[]]] [I2|[I2|[]]] M1 M2;
      injection I1 as <- <-; injection I2 as <- <-;
      try (split; reflexivity); discriminate.
Defined.

Lemma serverTable_order :
  [("onGetVal", CbOnGetVal); ("onSetVal", CbOnSetVal);
   ("subscribe", CbSubscribe); ("unsubscribe", CbUnSubscribe)]
  ≡ₚ map_to_list (listensOf (serverConn 1%nat "a:1" ∅ true)).
Proof.
  apply (bool_decide_unpack _). vm_compute. reflexivity.
Qed.

Lemma serverTable_unambiguous (action : string) (p1 p2 : string) (h1 h2 : ConnCB) :
  In (p1, h1) [("onGetVal", CbOnGetVal); ("onSetVal", CbOnSetVal);
               ("subscribe", CbSubscribe); ("unsubscribe", CbUnSubscribe)] ->
  In (p2, h2) [("onGetVal", CbOnGetVal); ("onSetVal", CbOnSetVal);
               ("subscribe", CbSubscribe); ("unsubscribe", CbUnSubscribe)] ->
  HasPrefix action p1 = true -> HasPrefix action p2 = true ->
  p1 = p2 /\ h1 = h2.
Proof.
  intros I1 I2 M1 M2.
  apply HasPrefix_spec in M1 as [r1 E1]. apply HasPrefix_spec in M2 as [r2 E2].
  rewrite E1 in E2. clear E1.
  destruct I1 as [I1|[I1|[I1|[I1|[]]]]]; destruct I2 as [I2|[I2|[I2|[I2|[]]]]];
    injection I1 as <- <-; injection I2 as <- <-;
    try (split; reflexivity); simpl in E2; discriminate.
Qed.

(** X21. The handler table that [WrapConn] and [initListens] build is
    unambiguous: on a server-side connection, whatever the order of the
    range, an action goes to the handler of "onGetVal", "onSetVal",
    "subscribe" or "unsubscribe" of which it is an extension, and to none
    if it extends none of the four. *)
Theorem server_dispatch_is_deterministic
    (s : sock) (remote : string) (tags : gmap string bool) (ready : bool)
    (order : list (string * ConnCB)) (action : string) :
  order ≡ₚ map_to_list (listensOf (serverConn s remote tags ready)) ->
  scanListens order action
  = if HasPrefix action "onGetVal" then Some ("onGetVal", CbOnGetVal)
    else if HasPrefix action "onSetVal" then Some ("onSetVal", CbOnSetVal)
    else if HasPrefix action "subscribe" then Some ("subscribe", CbSubscribe)
    else if HasPrefix action "unsubscribe" then Some ("unsubscribe", CbUnSubscribe)
    else None.
Proof.
  intros HP.
  change (listensOf (serverConn s remote tags ready))
    with (listensOf (serverConn 1%nat "a:1" ∅ true)) in HP.
  rewrite <- serverTable_order in HP.
  rewrite <- (scanListens_order_irrelevant_aux _ _ action (symmetry HP)
                (fun p1 h1 p2 h2 => serverTable_unambiguous action p1 p2 h1 h2)).
  reflexivity.
Qed.

Lemma server_dispatch_is_deterministic_witness :
  scanListens [("unsubscribe", CbUnSubscribe); ("onGetVal", CbOnGetVal);
               ("subscribe", CbSubscribe); ("onSetVal", CbOnSetVal)] "onGetValRes"
  = Some ("onGetVal", CbOnGetVal).
Proof.
  apply (server_dispatch_is_deterministic 1%nat "a:1" ∅ true
           [("unsubscribe", CbUnSubscribe); ("onGetVal", CbOnGetVal);
            ("subscribe", CbSubscribe); ("onSetVal", CbOnSetVal)] "onGetValRes").
  apply (bool_decide_unpack _). vm_compute. reflexivity.
Defined.

(** ** The read loop *)

Lemma readOnly_same_trace (w w' : World) : trace w' = trace w -> readOnly w w'.
Proof. intros H. exists []. rewrite app_nil_r. split; [exact H|reflexivity]. Qed.

Lemma readOnly_trans (w1 w2 w3 : World) : readOnly w1 w2 -> readOnly w2 w3 -> readOnly w1 w3.
Proof.
  intros [e1 [H1 F1]] [e2 [H2 F2]]. exists (e1 ++ e2)%list.
  rewrite H2, H1, <- app_assoc. split; [reflexivity|].
  rewrite forallb_app, F1, F2. reflexivity.
Qed.

Lemma emit_readOnly (e : Event) (w w' : World) (u : unit) :
  isSockWrite e = false -> emit e w = Done (u, w') -> readOnly w w'.
Proof.
  intros He H. inversion H; subst. exists [e]. simpl. rewrite He. split; reflexivity.
Qed.

Lemma TimeMS_readOnly (w w' : World) (now : Z) : TimeMS w = Done (now, w') -> readOnly w w'.
Proof.
  unfold TimeMS. destruct (clock w); [discriminate|].
  intros H; inversion H; subst. apply readOnly_same_trace. reflexivity.
Qed.

Lemma connRead_readOnly (c : BanConn) (n : Z) (w w' : World) (r : bytes * option GoErr) :
  connRead c n w = Done (r, w') -> readOnly w w'.
Proof.
  unfold connRead, sockRead. destruct (Conn c) as [s|]; [|discriminate].
  destruct (sockReads w) as [|[got e] later]; [discriminate|].
  intros H; inversion H; subst. exists [EvSockRead s n]. split; reflexivity.
Qed.

Lemma dialLoop_readOnly (fuel : nat) (addr : string) (c c' : BanConn) (w w' : World) :
  dialLoop fuel addr c w = Done (c', w') -> readOnly w w'.
Proof.
  revert w. induction fuel as [|fuel IH]; intros w; [discriminate|].
  cbn [dialLoop]. intros H.
  apply bind_Done in H as (r & w1 & H1 & H).
  assert (Q1 : readOnly w w1).
  { unfold netDial in H1. destruct (dials w); [discriminate|].
    inversion H1; subst. exists [EvDial addr]. split; reflexivity. }
  destruct r as [err|s].
  - apply bind_Done in H as (u1 & w2 & H2 & H).
    apply bind_Done in H as (u2 & w3 & H3 & H).
    apply emit_readOnly in H2; [|reflexivity]. apply emit_readOnly in H3; [|reflexivity].
    apply IH in H. eauto using readOnly_trans.
  - inversion H; subst. exact Q1.
Qed.

Lemma reconnect_readOnly (fuel : nat) (c c' : BanConn) (w w' : World) :
  reconnect fuel c w = Done (c', w') -> readOnly w w'.
Proof.
  unfold reconnect. intros H.
  apply bind_Done in H as (c1 & w1 & H1 & H).
  assert (Q1 : readOnly w w1).
  { destruct (Conn (set_Ready false c)).
    - apply bind_Done in H1 as (u & w0 & H0 & H1).
      apply emit_readOnly in H0; [|reflexivity].
      inversion H1; subst. exact H0.
    - inversion H1; subst. apply readOnly_same_trace. reflexivity. }
  apply bind_Done in H as (u & w2 & H2 & H).
  apply emit_readOnly in H2; [|reflexivity].
  apply bind_Done in H as (c2 & w3 & H3 & H).
  assert (Q3 : readOnly w2 w3).
  { unfold callDoConnect in H3. destruct (DoConnect c1) as [[addr]|]; [|discriminate].
    eapply dialLoop_readOnly, H3. }
  apply bind_Done in H as (now & w4 & H4 & H).
  apply TimeMS_readOnly in H4.
  assert (Q5 : readOnly w4 w').
  { destruct (Conn (set_RefreshMS now c2)).
    - apply bind_Done in H as (u5 & w5 & H5 & H).
      inversion H; subst.
      destruct (ReInitConn (set_RefreshMS now c2)).
      + eapply emit_readOnly, H5. reflexivity.
      + inversion H5; subst. apply readOnly_same_trace. reflexivity.
    - inversion H; subst. apply readOnly_same_trace. reflexivity. }
  eauto using readOnly_trans.
Qed.

Lemma connect_readOnly (fuel : nat) (lock : bool) (c c' : BanConn) (w w' : World) :
  connect fuel lock c w = Done (c', w') -> readOnly w w'.
Proof.
  unfold connect. destruct lock; [|apply reconnect_readOnly].
  intros H.
  apply bind_Done in H as (u & w1 & H1 & H).
  apply emit_readOnly in H1; [|reflexivity].
  apply bind_Done in H as (fresh & w2 & H2 & H).
  assert (Q2 : readOnly w1 w2).
  { destruct (Ready c).
    - apply bind_Done in H2 as (now & w0 & H0 & H2). inversion H2; subst.
      eapply TimeMS_readOnly, H0.
    - inversion H2; subst. apply readOnly_same_trace. reflexivity. }
  destruct fresh.
  - apply bind_Done in H as (u3 & w3 & H3 & H). inversion H; subst.
    apply emit_readOnly in H3; [|reflexivity]. eauto using readOnly_trans.
  - apply bind_Done in H as (c2 & w3 & H3 & H).
    apply bind_Done in H as (u4 & w4 & H4 & H). inversion H; subst.
    apply reconnect_readOnly in H3. apply emit_readOnly in H4; [|reflexivity].
    eauto using readOnly_trans.
Qed.

Lemma sameTables_refl (c : BanConn) : sameTables c c.
Proof. repeat split. Qed.

Lemma sameTables_trans (c1 c2 c3 : BanConn) :
  sameTables c1 c2 -> sameTables c2 c3 -> sameTables c1 c3.
Proof.
  unfold sameTables. intros (A1 & A2 & A3 & A4 & A5) (B1 & B2 & B3 & B4 & B5).
  repeat split; congruence.
Qed.

Lemma connect_sameTables (fuel : nat) (lock : bool) (c c' : BanConn) (w w' : World) :
  connect fuel lock c w = Done (c', w') -> sameTables c c'.
Proof.
  assert (HR : forall w0 w1, reconnect fuel c w0 = Done (c', w1) -> sameTables c c').
  { intros w0 w1 H. apply reconnect_result in H as (s & now & ->). repeat split. }
  unfold connect. destruct lock; [|apply HR].
  intros H.
  apply bind_Done in H as (u & w1 & H1 & H).
  apply bind_Done in H as (fresh & w2 & H2 & H).
  destruct fresh.
  - apply bind_Done in H as (u3 & w3 & H3 & H). inversion H; subst.
    apply sameTables_refl.
  - apply bind_Done in H as (c2 & w3 & H3 & H).
    apply bind_Done in H as (u4 & w4 & H4 & H). inversion H; subst.
    eapply HR, H3.
Qed.

Lemma Read_readOnly (fuel : nat) (c c' : BanConn) (w w' : World) (r : Error + bytes) :
  Read fuel c w = Done (r, c', w') -> readOnly w w' /\ sameTables c c'.
Proof.
  revert c w. induction fuel as [|fuel IH]; intros c w; [discriminate|].
  cbn [Read]. intros H.
  apply bind_Done in H as ([lenBuf e1] & w1 & H1 & H).
  apply connRead_readOnly in H1.
  destruct e1 as [e|].
  - destruct (_ && _).
    + apply bind_Done in H as (u & w2 & H2 & H).
      apply emit_readOnly in H2; [|reflexivity].
      apply bind_Done in H as (c2 & w3 & H3 & H).
      pose proof (connect_sameTables _ _ _ _ _ _ H3) as T3.
      apply connect_readOnly in H3. apply IH in H as [H T].
      split; eauto using readOnly_trans, sameTables_trans.
    + inversion H; subst. split; [exact H1|apply sameTables_refl].
  - apply bind_Done in H as ([buf e2] & w2 & H2 & H).
    apply connRead_readOnly in H2.
    assert (w' = w2 /\ c' = c) as [-> ->] by (destruct e2; inversion H; auto).
    split; [eauto using readOnly_trans|apply sameTables_refl].
Qed.

Lemma readOnly_extends (w w' : World) : readOnly w w' -> extends w w'.
Proof. intros [evs [H _]]. exists evs. exact H. Qed.

Lemma extends_same_trace (w w' : World) : trace w' = trace w -> extends w w'.
Proof. intros H. exists []. rewrite app_nil_r. exact H. Qed.

Lemma extends_trans (w1 w2 w3 : World) : extends w1 w2 -> extends w2 w3 -> extends w1 w3.
Proof.
  intros [e1 H1] [e2 H2]. exists (e1 ++ e2)%list.
  rewrite H2, H1, <- app_assoc. reflexivity.
Qed.

Lemma emit_extends (e : Event) (w w' : World) (u : unit) :
  emit e w = Done (u, w') -> extends w w'.
Proof. intros H. inversion H; subst. exists [e]. reflexivity. Qed.

Lemma TimeMS_extends (w w' : World) (now : Z) : TimeMS w = Done (now, w') -> extends w w'.
Proof. intros H. apply readOnly_extends, (TimeMS_readOnly _ _ _ H). Qed.

Lemma ReadMsg_extends (L : CodecLib) (fuel : nat) (c c' : BanConn) (w w' : World)
    (r : Error + IOMsg) :
  ReadMsg fuel c w = Done (r, c', w') -> extends w w'.
Proof.
  unfold ReadMsg. intros H.
  apply bind_Done in H as ([r0 c0] & w0 & H0 & H).
  apply Read_readOnly in H0 as [Q0 _].
  assert (w' = w0) as -> by (destruct r0; inversion H; auto).
  apply readOnly_extends, Q0.
Qed.

Lemma WriteMsg_extends (L : CodecLib) (fuel : nat) (c c' : BanConn) (msg : IOMsg)
    (w w' : World) (err : option Error) :
  WriteMsg fuel c msg w = Done (err, c', w') -> extends w w'.
Proof.
  unfold WriteMsg.
  destruct (Marshal msg) as [e|raw].
  { intros H; inversion H; subst. apply extends_same_trace. reflexivity. }
  destruct (compress raw) as [e|z].
  { intros H; inversion H; subst. apply extends_same_trace. reflexivity. }
  intros H.
  apply bind_Done in H as (u1 & w1 & H1 & H).
  apply bind_Done in H as (r & w2 & H2 & H).
  apply bind_Done in H as (u3 & w3 & H3 & H).
  inversion H; subst.
  apply emit_extends in H1. apply Write_quiet, quiet_extends in H2.
  apply emit_extends in H3. eauto using extends_trans.
Qed.

Lemma DecodeMsgData_extends {T : Type} (decoded r : option T) (name : string)
    (w w' : World) :
  DecodeMsgData decoded name w = Done (r, w') -> extends w w'.
Proof.
  unfold DecodeMsgData. destruct decoded.
  - intros H; inversion H; subst. apply extends_same_trace. reflexivity.
  - intros H. apply bind_Done in H as (u & w1 & H1 & H).
    inversion H; subst. eapply emit_extends, H1.
Qed.

Lemma Server_GetVal_extends (s s' : Server.ServerIO) (key : string) (val : Value)
    (w w' : World) :
  Server.GetVal s key w = Done (val, s', w') -> extends w w'.
Proof.
  unfold Server.GetVal.
  destruct (mget (Server.Data s) key);
    [|intros H; inversion H; subst; apply extends_same_trace; reflexivity].
  destruct (mget (Server.DataExp s) key);
    [|intros H; inversion H; subst; apply extends_same_trace; reflexivity].
  intros H. apply bind_Done in H as (now & w1 & H1 & H).
  apply TimeMS_extends in H1.
  destruct (bool_decide _); inversion H; subst; exact H1.
Qed.

Lemma Server_SetVal_extends (s s' : Server.ServerIO) (args : KeyValExpire)
    (w w' : World) :
  Server.SetVal s args w = Done (s', w') -> extends w w'.
Proof.
  assert (G : forall val,
    match mset (Key args) val (Server.Data s) with
    | None => panic nilMapWrite
    | Some d =>
      let s := Server.set_Data d s in
      if bool_decide (0 < ExpireSecs args) then
        now ← TimeMS;
        match mset (Key args) (add64 now (mul64 (ExpireSecs args) 1000)) (Server.DataExp s) with
        | None => panic nilMapWrite
        | Some e => mret (Server.set_DataExp e s)
        end
      else mret s
    end w = Done (s', w') -> extends w w').
  { intros val. destruct (mset (Key args) val (Server.Data s)) as [d|]; [|discriminate].
    cbv zeta. destruct (bool_decide _).
    - intros H. apply bind_Done in H as (now & w1 & H1 & H).
      apply TimeMS_extends in H1.
      destruct (mset _ _ _); [|discriminate]. inversion H; subst. exact H1.
    - intros H; inversion H; subst. apply extends_same_trace. reflexivity. }
  unfold Server.SetVal. destruct (Val args); try apply G.
  intros H; inversion H; subst. apply extends_same_trace. reflexivity.
Qed.

(** The handlers of a server-side connection only add to the trace. *)
Lemma serverHandle_extends (L : CodecLib) (D : DataLib) (fuel : nat)
    (h : ConnCB) (action : string) (data : Value)
    (st st' : BanConn * Server.ServerIO) (w w' : World) :
  serverHandle fuel h action data st w = Done (st', w') -> extends w w'.
Proof.
  unfold serverHandle. destruct h; try discriminate.
  - intros H. apply bind_Done in H as (c1 & w1 & H1 & H). inversion H; subst.
    unfold onSubscribe in H1.
    apply bind_Done in H1 as (tags & w0 & H0 & H1).
    apply DecodeMsgData_extends in H0.
    destruct tags as [tags|].
    + unfold Subscribe in H1. destruct (subscribeTags _ _); [|discriminate].
      inversion H1; subst. exact H0.
    + inversion H1; subst. exact H0.
  - intros H. apply bind_Done in H as (c1 & w1 & H1 & H). inversion H; subst.
    unfold onUnSubscribe in H1.
    apply bind_Done in H1 as (tags & w0 & H0 & H1).
    apply DecodeMsgData_extends in H0.
    destruct tags; inversion H1; subst; exact H0.
  - unfold onGetVal. intros H.
    apply bind_Done in H as ([val s1] & w1 & H1 & H).
    apply Server_GetVal_extends in H1.
    apply bind_Done in H as ([err res] & w2 & H2 & H).
    apply WriteMsg_extends in H2.
    destruct err.
    + apply bind_Done in H as (u & w3 & H3 & H). inversion H; subst.
      apply emit_extends in H3. eauto using extends_trans.
    + inversion H; subst. eauto using extends_trans.
  - intros H. apply bind_Done in H as (s1 & w1 & H1 & H). inversion H; subst.
    unfold onSetVal in H1.
    apply bind_Done in H1 as (args & w0 & H0 & H1).
    apply DecodeMsgData_extends in H0.
    destruct args as [args|].
    + apply Server_SetVal_extends in H1. eauto using extends_trans.
    + inversion H1; subst. exact H0.
Qed.

(** The loop returns only out of a [ReadMsg] that returned an error. *)
Lemma readLoop_returns_read_error (L : CodecLib) (Env : Type)
    (handle : ConnCB -> string -> Value -> BanConn * Env -> M (BanConn * Env))
    (fuel : nat) (st st' : BanConn * Env) (w w' : World) (err : Error) :
  (forall h a d st0 st1 w0 w1, handle h a d st0 w0 = Done (st1, w1) -> extends w0 w1) ->
  readLoop handle fuel st w = Done (err, st', w') ->
  exists fuel1 c1 w1,
    extends w w1
    /\ ReadMsg fuel1 c1 w1 = Done (inl err, fst st', w').
Proof.
  intros HH. revert st w. induction fuel as [|fuel IH]; intros st w; [discriminate|].
  cbn [readLoop]. intros H.
  apply bind_Done in H as ([r c1] & w1 & H1 & H).
  destruct r as [e|msg].
  - inversion H; subst. exists fuel, (fst st), w.
    split; [apply extends_same_trace; reflexivity|exact H1].
  - apply ReadMsg_extends in H1.
    apply bind_Done in H as (order & w2 & H2 & H).
    assert (Q2 : extends w1 w2).
    { unfold rangeListens in H2. destruct (ranges w1); [discriminate|].
      destruct (decide _); [|discriminate]. inversion H2; subst.
      apply extends_same_trace. reflexivity. }
    apply bind_Done in H as (st2 & w3 & H3 & H).
    assert (Q3 : extends w2 w3).
    { unfold dispatchRun in H3.
      apply bind_Done in H3 as (u & w4 & H4 & H3).
      assert (Q4 : extends w2 w4).
      { unfold dispatch in H4. destruct (scanListens order (Action msg)) as [[p h]|];
          eapply emit_extends, H4. }
      destruct (scanListens order (Action msg)) as [[p h]|].
      - apply HH in H3. eauto using extends_trans.
      - inversion H3; subst. exact Q4. }
    apply IH in H as (fuel1 & c2 & w5 & Q & HR).
    exists fuel1, c2, w5. split; [eauto using extends_trans|exact HR].
Qed.

(** X22. [RunForever] returns only out of a [ReadMsg] that returned an
    error, with that error, and the last thing it does is the deferred
    close of the socket the connection had when the loop was entered --
    also when a reconnect has put the connection on another socket in
    between, which stays open.  This holds whatever the handlers do to
    the connection and to what they capture, socket writes included, as
    long as they only add to the trace. *)
Theorem RunForever_closes_entry_socket (L : CodecLib) (Env : Type)
    (handle : ConnCB -> string -> Value -> BanConn * Env -> M (BanConn * Env))
    (fuel : nat) (c c' : BanConn) (env env' : Env) (w w' : World) (err : Error) :
  (forall h a d st0 st1 w0 w1, handle h a d st0 w0 = Done (st1, w1) -> extends w0 w1) ->
  RunForever handle fuel (c, env) w = Done (err, (c', env'), w') ->
  exists s0 evs fuel1 c1 w1 w2,
    Conn c = Some s0
    /\ trace w' = (trace w ++ evs ++ [EvSockClose s0])%list
    /\ ReadMsg fuel1 c1 w1 = Done (inl err, c', w2)
    /\ trace w' = (trace w2 ++ [EvSockClose s0])%list.
Proof.
  intros HH. unfold RunForever. cbn [fst].
  destruct (Conn c) as [s0|]; [|discriminate].
  intros H.
  apply bind_Done in H as ([err1 st1] & w1 & H1 & H).
  apply bind_Done in H as (u & w2 & H2 & H). inversion H; subst.
  inversion H2; subst.
  apply (readLoop_returns_read_error L Env handle _ _ _ _ _ _ HH) in H1
    as (fuel1 & c1 & w0 & Q & HR).
  pose proof (ReadMsg_extends _ _ _ _ _ _ _ HR) as Q'.
  destruct (extends_trans _ _ _ Q Q') as [evs E].
  exists s0, evs, fuel1, c1, w0, w1. cbn [fst] in HR.
  split; [reflexivity|]. simpl. rewrite E, <- app_assoc.
  split; [reflexivity|]. split; [exact HR|reflexivity].
Qed.

(** A connection as [WrapConn] builds it, on socket 2 and without
    subscriptions, under the server that holds 7 under "k".  The peer
    subscribes to "px": the handler adds the tag.  The peer asks for "k":
    the handler writes the answer on socket 2, under the write mutex.
    The next read meets EOF, which a connection without a reconnect hook
    returns, and socket 2 is closed on the way out. *)
Lemma RunForever_closes_entry_socket_witness :
  exists s0 evs fuel1 c1 w1 w2,
    Conn pxBystander = Some s0
    /\ [EvSockRead 2%nat 4; EvSockRead 2%nat 16;
        EvHandle CbSubscribe "subscribe" (VStrs ["px"]);
        EvSockRead 2%nat 4; EvSockRead 2%nat 13;
        EvHandle CbOnGetVal "onGetVal" (VStr "k");
        EvLock; EvSockWrite 2%nat [17; 0; 0; 0]; EvSockWrite 2%nat getValResFrame;
        EvUnlock; EvSockRead 2%nat 4; EvSockClose 2%nat]
       = (trace peerWorld ++ evs ++ [EvSockClose s0])%list
    /\ @ReadMsg Wire fuel1 c1 w1
       = Done (inl (errs_New ErrNetConnect eofErr),
               serverConn 2%nat "b:2" {["px" := true]} true, w2)
    /\ [EvSockRead 2%nat 4; EvSockRead 2%nat 16;
        EvHandle CbSubscribe "subscribe" (VStrs ["px"]);
        EvSockRead 2%nat 4; EvSockRead 2%nat 13;
        EvHandle CbOnGetVal "onGetVal" (VStr "k");
        EvLock; EvSockWrite 2%nat [17; 0; 0; 0]; EvSockWrite 2%nat getValResFrame;
        EvUnlock; EvSockRead 2%nat 4; EvSockClose 2%nat]
       = (trace w2 ++ [EvSockClose s0])%list.
Proof.
  apply (RunForever_closes_entry_socket Wire Server.ServerIO
           (@serverHandle Wire Plain 1) 4
           pxBystander (serverConn 2%nat "b:2" {["px" := true]} true)
           kvServer kvServer peerWorld
           {| sockWrites := []; sockReads := []; clock := []; dials := [];
              ranges := []; selects := []; nextChan := O;
              trace := [EvSockRead 2%nat 4; EvSockRead 2%nat 16;
                        EvHandle CbSubscribe "subscribe" (VStrs ["px"]);
                        EvSockRead 2%nat 4; EvSockRead 2%nat 13;
                        EvHandle CbOnGetVal "onGetVal" (VStr "k");
                        EvLock; EvSockWrite 2%nat [17; 0; 0; 0];
                        EvSockWrite 2%nat getValResFrame;
                        EvUnlock; EvSockRead 2%nat 4; EvSockClose 2%nat] |}
           (errs_New ErrNetConnect eofErr)).
  - intros h a d st0 st1 w0 w1. apply serverHandle_extends.
  - vm_compute. reflexivity.
Defined.

(** The same on a client connection that reconnects inside the loop,
    whatever its handlers are (no frame arrives): the first read meets
    EOF, the connection is redialled onto socket 2, the next read fails
    for good; socket 1 is closed by the reconnect and once more on the way
    out, socket 2 is left open. *)
Lemma RunForever_closes_old_socket_after_redial (Env : Type)
    (handle : ConnCB -> string -> Value -> BanConn * Env -> M (BanConn * Env))
    (env : Env) :
  @RunForever Loopback Env handle 3 (clientConn, env)
    {| sockWrites := [];
       sockReads := [([], Some eofErr); ([], Some resetOpErr)];
       clock := [5000; 5001]; dials := [inr 2%nat]; ranges := []; selects := [];
       nextChan := O; trace := [] |}
  = Done (errs_New ErrNetUnknown resetOpErr,
          (set_Ready true (set_RefreshMS 5001 (set_Conn (Some 2%nat) clientConn)), env),
          {| sockWrites := []; sockReads := []; clock := []; dials := [];
             ranges := []; selects := []; nextChan := O;
             trace := [EvSockRead 1%nat 4; EvLog "warn" "read fail, wait 3s and retry";
                       EvLock; EvSockClose 1%nat; EvSleep 3000; EvDial "srv:9001";
                       EvUnlock; EvSockRead 2%nat 4; EvSockClose 1%nat] |}).
Proof. reflexivity. Qed.

(** ** The key/value store, continued *)

Lemma SetVal_value (s : Server.ServerIO) (k : string) (v : Value) (secs : Z) :
  v <> VNil ->
  Server.SetVal s {| Key := k; Val := v; ExpireSecs := secs |}
  = match mset k v (Server.Data s) with
    | None => panic nilMapWrite
    | Some d =>
      if bool_decide (0 < secs) then
        now ← TimeMS;
        match mset k (add64 now (mul64 secs 1000)) (Server.DataExp (Server.set_Data d s)) with
        | None => panic nilMapWrite
        | Some e => mret (Server.set_DataExp e (Server.set_Data d s))
        end
      else mret (Server.set_Data d s)
    end.
Proof.
  intros Hv. unfold Server.SetVal. simpl.
  destruct v; try reflexivity. exfalso. apply Hv. reflexivity.
Qed.

(** X23. A set without TTL ([ExpireSecs] not positive) of a value on a
    server whose [Data] is allocated reads no clock and touches neither
    [DataExp] nor any other key; and if the key has no expiration entry,
    a following [get] returns the value and changes nothing.  This is
    all a server built by [NewBanServer] can store. *)
Theorem SetVal_without_ttl_then_GetVal
    (s : Server.ServerIO) (d : gmap string Value) (k : string) (v : Value)
    (secs : Z) (w : World) :
  Server.Data s = Some d ->
  v <> VNil ->
  secs <= 0 ->
  exists s',
    Server.SetVal s {| Key := k; Val := v; ExpireSecs := secs |} w = Done (s', w)
    /\ mget (Server.Data s') k = Some v
    /\ (forall k', k' <> k -> mget (Server.Data s') k' = mget (Server.Data s) k')
    /\ Server.DataExp s' = Server.DataExp s
    /\ Server.Conns s' = Server.Conns s
    /\ (mget (Server.DataExp s) k = None ->
        forall w1, Server.GetVal s' k w1 = Done (v, s', w1)).
Proof.
  intros HD Hv Hs. exists (Server.set_Data (Some (<[k := v]> d)) s).
  rewrite (SetVal_value s k v secs Hv), HD. simpl.
  rewrite bool_decide_false by lia.
  split; [reflexivity|]. simpl.
  split; [apply lookup_insert_eq|].
  split; [intros k' Hk; apply lookup_insert_ne; congruence|].
  split; [reflexivity|]. split; [reflexivity|].
  intros HX w1. unfold Server.GetVal. simpl. rewrite lookup_insert_eq, HX. reflexivity.
Qed.

Lemma SetVal_without_ttl_then_GetVal_witness :
  exists s',
    Server.SetVal (Server.NewBanServer ":9001" "spider")
      {| Key := "k"; Val := VStr "hello"; ExpireSecs := 0 |} idle = Done (s', idle)
    /\ mget (Server.Data s') "k" = Some (VStr "hello")
    /\ (forall k', k' <> "k" ->
          mget (Server.Data s') k' = mget (Server.Data (Server.NewBanServer ":9001" "spider")) k')
    /\ Server.DataExp s' = Server.DataExp (Server.NewBanServer ":9001" "spider")
    /\ Server.Conns s' = Server.Conns (Server.NewBanServer ":9001" "spider")
    /\ (mget (Server.DataExp (Server.NewBanServer ":9001" "spider")) "k" = None ->
        forall w1, Server.GetVal s' "k" w1 = Done (VStr "hello", s', w1)).
Proof.
  apply (SetVal_without_ttl_then_GetVal (Server.NewBanServer ":9001" "spider") ∅
           "k" (VStr "hello") 0 idle); [reflexivity|discriminate|lia].
Defined.

(** X24. A set without TTL does not clear the deadline of an earlier
    set: with an expiration entry [exp] left for the key, the new value
    is returned by a [get] before [exp] and is gone, with both entries
    removed, at the first [get] from [exp] on. *)
Theorem SetVal_without_ttl_keeps_deadline
    (s : Server.ServerIO) (d : gmap string Value) (x : gmap string Z)
    (k : string) (v : Value) (secs exp : Z) (w : World) :
  Server.Data s = Some d ->
  Server.DataExp s = Some x ->
  x !! k = Some exp ->
  v <> VNil ->
  secs <= 0 ->
  exists s',
    Server.SetVal s {| Key := k; Val := v; ExpireSecs := secs |} w = Done (s', w)
    /\ mget (Server.DataExp s') k = Some exp
    /\ forall (now : Z) (w1 : World) (later : list Z),
         clock w1 = now :: later ->
         exists s'' w1',
           Server.GetVal s' k w1
           = Done (if bool_decide (now < exp) then (v, s') else (VNil, s''), w1')
           /\ mget (Server.Data s'') k = None
           /\ mget (Server.DataExp s'') k = None.
Proof.
  intros HD HX HK Hv Hs. exists (Server.set_Data (Some (<[k := v]> d)) s).
  rewrite (SetVal_value s k v secs Hv), HD. simpl.
  rewrite bool_decide_false by lia.
  split; [reflexivity|]. simpl. rewrite HX. simpl.
  split; [exact HK|].
  intros now w1 later HC.
  unfold Server.GetVal. simpl. rewrite lookup_insert_eq, HX. simpl. rewrite HK.
  unfold mbind, M_bind, TimeMS. rewrite HC.
  eexists (Server.set_DataExp (Some (delete k x))
             (Server.set_Data (Some (delete k (<[k := v]> d))) s)), _.
  destruct (decide (now < exp)) as [Hlt|Hge].
  - rewrite bool_decide_false by lia. rewrite bool_decide_true by exact Hlt.
    split; [reflexivity|]. simpl. rewrite !lookup_delete_eq. split; reflexivity.
  - rewrite bool_decide_true by lia. rewrite bool_decide_false by exact Hge.
    split; [reflexivity|]. simpl. rewrite !lookup_delete_eq. split; reflexivity.
Qed.

Lemma SetVal_without_ttl_keeps_deadline_witness :
  exists s',
    Server.SetVal ttlServer {| Key := "t"; Val := VStr "y"; ExpireSecs := 0 |} idle
    = Done (s', idle)
    /\ mget (Server.DataExp s') "t" = Some 6000
    /\ forall (now : Z) (w1 : World) (later : list Z),
         clock w1 = now :: later ->
         exists s'' w1',
           Server.GetVal s' "t" w1
           = Done (if bool_decide (now < 6000) then (VStr "y", s') else (VNil, s''), w1')
           /\ mget (Server.Data s'') "t" = None
           /\ mget (Server.DataExp s'') "t" = None.
Proof.
  apply (SetVal_without_ttl_keeps_deadline ttlServer {["t" := VStr "x"]} {["t" := 6000]}
           "t" (VStr "y") 0 6000 idle);
    [reflexivity|reflexivity|reflexivity|discriminate|lia].
Defined.

Lemma mget_mdel_ne {V : Type} (m : option (gmap string V)) (k k' : string) :
  k' <> k -> mget (mdel k m) k' = mget m k'.
Proof.
  intros H. destruct m as [g|]; simpl; [|reflexivity].
  apply lookup_delete_ne. congruence.
Qed.

(** X25. A [get] concerns its own key only: whatever it returns, the
    values and the deadlines of all other keys and the roster are as
    before; and it either returns the stored value and leaves the server
    as it was, or returns nil. *)
Theorem GetVal_touches_only_its_key
    (s s' : Server.ServerIO) (k : string) (r : Value) (w w' : World) :
  Server.GetVal s k w = Done (r, s', w') ->
  (forall k', k' <> k ->
     mget (Server.Data s') k' = mget (Server.Data s) k'
     /\ mget (Server.DataExp s') k' = mget (Server.DataExp s) k')
  /\ Server.Conns s' = Server.Conns s
  /\ ((mget (Server.Data s) k = Some r /\ s' = s) \/ r = VNil).
Proof.
  unfold Server.GetVal. intros H.
  destruct (mget (Server.Data s) k) as [val|] eqn:HD.
  - destruct (mget (Server.DataExp s) k) as [exp|] eqn:HX.
    + apply bind_Done in H as (now & w1 & H1 & H).
      destruct (bool_decide (exp <= now)); inversion H; subst.
      * split; [|split; [reflexivity|right; reflexivity]].
        intros k' Hk. simpl. rewrite !mget_mdel_ne by exact Hk. split; reflexivity.
      * split; [intros; split; reflexivity|]. split; [reflexivity|]. left. auto.
    + inversion H; subst. split; [intros; split; reflexivity|].
      split; [reflexivity|]. left. auto.
  - inversion H; subst. split; [intros; split; reflexivity|].
    split; [reflexivity|]. right. reflexivity.
Qed.

Lemma GetVal_touches_only_its_key_witness :
  (forall k', k' <> "t" ->
     mget (Server.Data (Server.set_DataExp (Some (delete "t" {["t" := 6000]}))
                          (Server.set_Data (Some (delete "t" {["t" := VStr "x"]})) ttlServer))) k'
     = mget (Server.Data ttlServer) k'
     /\ mget (Server.DataExp (Server.set_DataExp (Some (delete "t" {["t" := 6000]}))
                                (Server.set_Data (Some (delete "t" {["t" := VStr "x"]})) ttlServer))) k'
        = mget (Server.DataExp ttlServer) k')
  /\ Server.Conns (Server.set_DataExp (Some (delete "t" {["t" := 6000]}))
                     (Server.set_Data (Some (delete "t" {["t" := VStr "x"]})) ttlServer))
     = Server.Conns ttlServer
  /\ ((mget (Server.Data ttlServer) "t" = Some VNil
       /\ Server.set_DataExp (Some (delete "t" {["t" := 6000]}))
            (Server.set_Data (Some (delete "t" {["t" := VStr "x"]})) ttlServer) = ttlServer)
      \/ VNil = VNil).
Proof.
  apply (GetVal_touches_only_its_key ttlServer _ "t" VNil
           {| sockWrites := []; sockReads := []; clock := [7000]; dials := [];
              ranges := []; selects := []; nextChan := O; trace := [] |} idle).
  reflexivity.
Defined.

Lemma SetVal_GetVal_ttl_when_allocated_witness :
  exists s' w',
    Server.SetVal allocatedServer {| Key := "t"; Val := VStr "x"; ExpireSecs := 1 |}
      {| sockWrites := []; sockReads := []; clock := [5000]; dials := [];
         ranges := []; selects := []; nextChan := O; trace := [] |} = Done (s', w')
    /\ forall (t' : Z) (w1 : World) (later1 : list Z),
         clock w1 = t' :: later1 ->
         exists s'' w1',
           Server.GetVal s' "t" w1 = Done (if bool_decide (t' < 5000 + 1 * 1000)
                                           then (VStr "x", s') else (VNil, s''), w1')
           /\ mget (Server.Data s'') "t" = None
           /\ mget (Server.DataExp s'') "t" = None.
Proof.
  apply (SetVal_GetVal_ttl_when_allocated allocatedServer ∅ ∅ "t" (VStr "x") 1 5000
           {| sockWrites := []; sockReads := []; clock := [5000]; dials := [];
              ranges := []; selects := []; nextChan := O; trace := [] |} []);
    try reflexivity; try discriminate; unfold in_int64; lia.
Defined.

(** ** The process-wide server and client, continued *)

(** X27. With neither a server nor a client loaded, reading, writing
    and releasing a lock all return an error of kind [ErrRunTime] and do
    nothing: the release does not report success. *)
Theorem no_server_no_client_is_ErrRunTime (L : CodecLib)
    (fuel : nat) (g : Globals) (key : string) (args : KeyValExpire)
    (lockVal : Z) (w : World) :
  banServer g = None ->
  banClient g = None ->
  GetServerData fuel g key w
    = Done (VNil, Some (errs_NewMsg ErrRunTime "banClient not load"), g, w)
  /\ SetServerData fuel g args w
     = Done (Some (errs_NewMsg ErrRunTime "banClient not load"), g, w)
  /\ DelNetLock fuel g key lockVal w
     = Done (Some (errs_NewMsg ErrRunTime "banClient not load"), g, w).
Proof.
  intros HS HC. unfold DelNetLock, GetServerData, SetServerData, mbind, M_bind.
  rewrite HS, HC. repeat split.
Qed.

Lemma no_server_no_client_is_ErrRunTime_witness :
  @GetServerData Loopback 1 {| banServer := None; banClient := None |} "k" idle
    = Done (VNil, Some (errs_NewMsg ErrRunTime "banClient not load"),
            {| banServer := None; banClient := None |}, idle)
  /\ @SetServerData Loopback 1 {| banServer := None; banClient := None |}
       {| Key := "k"; Val := VStr "v"; ExpireSecs := 0 |} idle
     = Done (Some (errs_NewMsg ErrRunTime "banClient not load"),
             {| banServer := None; banClient := None |}, idle)
  /\ @DelNetLock Loopback 1 {| banServer := None; banClient := None |} "k" 41 idle
     = Done (Some (errs_NewMsg ErrRunTime "banClient not load"),
             {| banServer := None; banClient := None |}, idle).
Proof.
  apply (no_server_no_client_is_ErrRunTime Loopback 1
           {| banServer := None; banClient := None |} "k"
           {| Key := "k"; Val := VStr "v"; ExpireSecs := 0 |} 41 idle); reflexivity.
Defined.

(** X28. A loaded server shadows a loaded client.  On a process that
    holds a server, writing a value without TTL and reading it back go to
    the local store: the read returns the value with no error (the key
    having no expiration entry), the client is left as it was, and
    nothing is sent or logged. *)
Theorem local_server_shadows_client (L : CodecLib)
    (fuel : nat) (g : Globals) (s : Server.ServerIO) (d : gmap string Value)
    (k : string) (v : Value) (secs : Z) (w : World) :
  banServer g = Some s ->
  Server.Data s = Some d ->
  mget (Server.DataExp s) k = None ->
  v <> VNil ->
  secs <= 0 ->
  exists g',
    SetServerData fuel g {| Key := k; Val := v; ExpireSecs := secs |} w = Done (None, g', w)
    /\ banClient g' = banClient g
    /\ GetServerData fuel g' k w = Done (v, None, g', w).
Proof.
  intros HS HD HX Hv Hs.
  exists {| banServer := Some (Server.set_Data (Some (<[k := v]> d)) s);
            banClient := banClient g |}.
  unfold SetServerData, GetServerData. rewrite HS. simpl.
  rewrite (SetVal_value s k v secs Hv), HD. simpl.
  rewrite bool_decide_false by lia.
  split; [reflexivity|]. split; [reflexivity|].
  unfold mbind, M_bind, Server.GetVal. simpl. rewrite lookup_insert_eq, HX.
  reflexivity.
Qed.

Lemma local_server_shadows_client_witness :
  exists g',
    @SetServerData Loopback 0
      {| banServer := Some lockServer; banClient := Some kvClient |}
      {| Key := "k"; Val := VStr "v"; ExpireSecs := 0 |} idle = Done (None, g', idle)
    /\ banClient g' = Some kvClient
    /\ @GetServerData Loopback 0 g' "k" idle = Done (VStr "v", None, g', idle).
Proof.
  apply (local_server_shadows_client Loopback 0
           {| banServer := Some lockServer; banClient := Some kvClient |}
           lockServer {["lock_job" := VInt 41]} "k" (VStr "v") 0 idle);
    [reflexivity|reflexivity|reflexivity|discriminate|lia].
Defined.
